(** * Fyyur: the route handlers of [app.py] over a relational store

    A shallow embedding of the controllers of [src/app.py]: the three tables
    (Venue, Artist, Show), the ORM session with its pending transaction, the
    SQL [ILIKE] filter built by the search routes, and every create, edit,
    delete, search and detail handler.  Handlers are written in a small
    state-and-exception monad so that they read like the Python they model. *)

From Stdlib Require Import List String Ascii Bool Arith ZArith Lia Permutation.
Import ListNotations.

Local Open Scope string_scope.
Local Open Scope list_scope.
Local Open Scope nat_scope.

(* ------------------------------------------------------------------------- *)
(** ** Text *)
(* ------------------------------------------------------------------------- *)

(** Python strings are modelled as [string]; matching works on their
    characters. *)
Definition chars (s : string) : list ascii := list_ascii_of_string s.

(** Case folding as the engine applies it for [ILIKE], on the ASCII letters. *)
Definition lower_char (c : ascii) : ascii :=
  let n := nat_of_ascii c in
  if Nat.leb 65 n && Nat.leb n 90 then ascii_of_nat (n + 32) else c.

Definition lower (s : list ascii) : list ascii := map lower_char s.

Definition percent : ascii := "%"%char.
Definition underscore : ascii := "_"%char.
Definition backslash : ascii := "\"%char.

(** The engine's escape character for [LIKE] when the statement carries no
    [ESCAPE] clause (the handlers never give one): none in standard SQL and
    SQLite, the backslash in PostgreSQL. *)
Inductive Dialect : Type :=
| StandardLike
| BackslashEscape.

Definition escape_char (d : Dialect) : option ascii :=
  match d with
  | StandardLike => None
  | BackslashEscape => Some backslash
  end.

Definition is_escape (d : Dialect) (c : ascii) : bool :=
  match escape_char d with
  | Some e => Ascii.eqb c e
  | None => false
  end.

(** SQL [LIKE]: [%] matches any run of characters, [_] any one character, an
    escape character makes the next pattern character literal, every other
    pattern character matches itself.  A pattern that ends in a lone escape
    character matches nothing. *)
Fixpoint like_match (d : Dialect) (p s : list ascii) {struct p} : bool :=
  match p with
  | [] => match s with [] => true | _ :: _ => false end
  | c :: p' =>
      if is_escape d c then
        match p' with
        | [] => false
        | c' :: p'' =>
            match s with
            | [] => false
            | x :: s' => Ascii.eqb x c' && like_match d p'' s'
            end
        end
      else if Ascii.eqb c percent then
        (fix any_run (t : list ascii) : bool :=
           like_match d p' t
           || match t with
              | [] => false
              | _ :: t' => any_run t'
              end) s
      else if Ascii.eqb c underscore then
        match s with
        | [] => false
        | _ :: s' => like_match d p' s'
        end
      else
        match s with
        | [] => false
        | x :: s' => Ascii.eqb x c && like_match d p' s'
        end
  end.

(** [column.ilike(pattern)]: [LIKE] after case folding of both sides. *)
Definition ilike (d : Dialect) (column pattern : string) : bool :=
  like_match d (lower (chars pattern)) (lower (chars column)).

(** The pattern of the three search routes, [f'%{q}%']. *)
Definition search_pattern (q : string) : string := ("%" ++ q ++ "%")%string.

(** Plain substring containment, the reading of "the name contains the
    term". *)
Fixpoint is_prefix (q s : list ascii) : bool :=
  match q, s with
  | [], _ => true
  | _ :: _, [] => false
  | c :: q', x :: s' => Ascii.eqb x c && is_prefix q' s'
  end.

Fixpoint is_infix (q s : list ascii) : bool :=
  is_prefix q s
  || match s with
     | [] => false
     | _ :: s' => is_infix q s'
     end.

(** Case-insensitive substring containment of the term [q] in [name]. *)
Definition contains_ci (q name : string) : bool :=
  is_infix (lower (chars q)) (lower (chars name)).

(* ------------------------------------------------------------------------- *)
(** ** Tables *)
(* ------------------------------------------------------------------------- *)

(** The mapped classes of [models.py] are imported by [app.py] but their
    declarations are not part of the sources at hand; the columns are the ones
    the handlers read and the data model lists.  Timestamps are integers on
    the time line of [datetime.now()]. *)
Module Venue.
Record t : Type := mk {
  id : nat;
  name : string;
  genres : list string;
  city : string;
  state : string;
  address : string;
  phone : string;
  website : string;
  facebook_link : string;
  seeking_talent : bool;
  seeking_description : string;
  image_link : string
}.
End Venue.

Module Artist.
Record t : Type := mk {
  id : nat;
  name : string;
  genres : list string;
  city : string;
  state : string;
  phone : string;
  website : string;
  facebook_link : string;
  seeking_venue : bool;
  seeking_description : string;
  image_link : string
}.
End Artist.

Module Show.
Record t : Type := mk {
  id : nat;
  venue_id : nat;
  artist_id : nat;
  start_time : Z
}.
End Show.

Record Database : Type := mkDatabase {
  venues : list Venue.t;
  artists : list Artist.t;
  shows : list Show.t
}.

(** What [db.Model] gives a mapped class: its primary key and its table. *)
Class Model (T : Type) : Type := {
  pk : T -> nat;
  with_pk : nat -> T -> T;
  table : Database -> list T;
  set_table : list T -> Database -> Database
}.

#[export] Instance VenueModel : Model Venue.t := {
  pk := Venue.id;
  with_pk := fun i v =>
    Venue.mk i (Venue.name v) (Venue.genres v) (Venue.city v) (Venue.state v)
      (Venue.address v) (Venue.phone v) (Venue.website v)
      (Venue.facebook_link v) (Venue.seeking_talent v)
      (Venue.seeking_description v) (Venue.image_link v);
  table := venues;
  set_table := fun l db => mkDatabase l (artists db) (shows db)
}.

#[export] Instance ArtistModel : Model Artist.t := {
  pk := Artist.id;
  with_pk := fun i a =>
    Artist.mk i (Artist.name a) (Artist.genres a) (Artist.city a)
      (Artist.state a) (Artist.phone a) (Artist.website a)
      (Artist.facebook_link a) (Artist.seeking_venue a)
      (Artist.seeking_description a) (Artist.image_link a);
  table := artists;
  set_table := fun l db => mkDatabase (venues db) l (shows db)
}.

#[export] Instance ShowModel : Model Show.t := {
  pk := Show.id;
  with_pk := fun i s =>
    Show.mk i (Show.venue_id s) (Show.artist_id s) (Show.start_time s);
  table := shows;
  set_table := fun l db => mkDatabase (venues db) (artists db) l
}.

(** The key the engine gives a newly inserted row: one no row of the table
    carries. *)
Definition fresh_id (ids : list nat) : nat := S (fold_right Nat.max 0 ids).

(** Row-level statements on a table, by primary key. *)
Definition find_row {T} `{Model T} (i : nat) (rows : list T) : option T :=
  find (fun r => pk r =? i) rows.

Definition insert_row {T} `{Model T} (x : T) (rows : list T) : list T :=
  rows ++ [x].

Definition update_row {T} `{Model T} (x : T) (rows : list T) : list T :=
  map (fun r => if pk r =? pk x then x else r) rows.

Definition delete_row {T} `{Model T} (i : nat) (rows : list T) : list T :=
  filter (fun r => negb (pk r =? i)) rows.

(* ------------------------------------------------------------------------- *)
(** ** Forms *)
(* ------------------------------------------------------------------------- *)

(** Modelled from the spec: [forms.py] ([VenueForm], [ArtistForm],
    [ShowForm]) is not part of the sources at hand.  Following section 4.3 a
    form carries one field per entity attribute other than the key, and
    [populate_obj] copies each field onto the attribute of the same name. *)
Module VenueForm.
Record t : Type := mk {
  name : string;
  genres : list string;
  city : string;
  state : string;
  address : string;
  phone : string;
  website : string;
  facebook_link : string;
  seeking_talent : bool;
  seeking_description : string;
  image_link : string
}.

Definition populate_obj (form : t) (venue : Venue.t) : Venue.t :=
  Venue.mk (Venue.id venue) (name form) (genres form) (city form)
    (state form) (address form) (phone form) (website form)
    (facebook_link form) (seeking_talent form) (seeking_description form)
    (image_link form).

(** [VenueForm(obj=venue)] on a request that submits nothing. *)
Definition of_obj (venue : Venue.t) : t :=
  mk (Venue.name venue) (Venue.genres venue) (Venue.city venue)
    (Venue.state venue) (Venue.address venue) (Venue.phone venue)
    (Venue.website venue) (Venue.facebook_link venue)
    (Venue.seeking_talent venue) (Venue.seeking_description venue)
    (Venue.image_link venue).
End VenueForm.

Module ArtistForm.
Record t : Type := mk {
  name : string;
  genres : list string;
  city : string;
  state : string;
  phone : string;
  website : string;
  facebook_link : string;
  seeking_venue : bool;
  seeking_description : string;
  image_link : string
}.

Definition populate_obj (form : t) (artist : Artist.t) : Artist.t :=
  Artist.mk (Artist.id artist) (name form) (genres form) (city form)
    (state form) (phone form) (website form) (facebook_link form)
    (seeking_venue form) (seeking_description form) (image_link form).

Definition of_obj (artist : Artist.t) : t :=
  mk (Artist.name artist) (Artist.genres artist) (Artist.city artist)
    (Artist.state artist) (Artist.phone artist) (Artist.website artist)
    (Artist.facebook_link artist) (Artist.seeking_venue artist)
    (Artist.seeking_description artist) (Artist.image_link artist).
End ArtistForm.

Module ShowForm.
Record t : Type := mk {
  artist_id : nat;
  venue_id : nat;
  start_time : Z
}.

Definition populate_obj (form : t) (show : Show.t) : Show.t :=
  Show.mk (Show.id show) (venue_id form) (artist_id form) (start_time form).
End ShowForm.

(** The objects [Venue()], [Artist()] and [Show()] before the form is copied
    onto them; the key is set when the row is inserted. *)
Definition blank_venue : Venue.t :=
  Venue.mk 0 "" [] "" "" "" "" "" "" false "" "".
Definition blank_artist : Artist.t :=
  Artist.mk 0 "" [] "" "" "" "" "" false "" "".
Definition blank_show : Show.t := Show.mk 0 0 0 0%Z.

(** What [forms.py] declares, taken as given: the field validators, and the
    values the fields of a form show when nothing was submitted to it (the
    field defaults of [VenueForm()], [ArtistForm()], [ShowForm()]). *)
Record Validators : Type := mkValidators {
  validate_venue : VenueForm.t -> bool;
  validate_artist : ArtistForm.t -> bool;
  validate_show : ShowForm.t -> bool;
  unbound_venue : VenueForm.t;
  unbound_artist : ArtistForm.t;
  unbound_show : ShowForm.t
}.

Inductive Method : Type := GET | POST.

(** A request to a form route: its method and the submitted fields. *)
Record Request (F : Type) : Type := mkRequest {
  method : Method;
  formdata : F
}.
Arguments mkRequest {F} _ _.
Arguments method {F} _.
Arguments formdata {F} _.

(** [form.validate_on_submit()]: true only for a POST whose fields pass. *)
Definition validate_on_submit {F} (validate : F -> bool) (req : Request F)
  : bool :=
  match method req with
  | POST => validate (formdata req)
  | GET => false
  end.

(** The form object of a route.  Flask-WTF binds the submitted fields only
    on a submitting method: on a POST the form holds them; otherwise it holds
    the row's values in an edit route ([Form(obj=row)]) and the field
    defaults in a create route ([Form()]). *)
Definition bound_form {F} (req : Request F) (from_obj : F) : F :=
  match method req with
  | POST => formdata req
  | GET => from_obj
  end.

(* ------------------------------------------------------------------------- *)
(** ** The session and the handler monad *)
(* ------------------------------------------------------------------------- *)

(** The calls a handler makes on [db.session], in the order made. *)
Inductive Call : Type := Add | Delete | Commit | Rollback | Close.

(** What a request can observe and change: the rows committed in the engine,
    the session's view of them (committed rows with the pending changes of
    the open transaction), whether the session was used and not closed
    since, the session calls made, and the flashed messages. *)
Record World : Type := mkWorld {
  stored : Database;
  working : Database;
  session_open : bool;
  calls : list Call;
  flashes : list string
}.

(** A handler step returns a value, aborts with an HTTP status
    ([get_or_404]), or raises [SQLAlchemyError]. *)
Inductive Result (A : Type) : Type :=
| Ok (a : A)
| Abort (status : nat)
| Raise.
Arguments Ok {A} _.
Arguments Abort {A} _.
Arguments Raise {A}.

Definition M (A : Type) : Type := World -> Result A * World.

Definition ret {A} (a : A) : M A := fun w => (Ok a, w).

Definition bind {A B} (m : M A) (k : A -> M B) : M B :=
  fun w =>
    match m w with
    | (Ok a, w') => k a w'
    | (Abort st, w') => (Abort st, w')
    | (Raise, w') => (Raise, w')
    end.

Notation "x <- m ;; k" := (bind m (fun x => k))
  (at level 61, m at next level, right associativity).
Notation "m ;;; k" := (bind m (fun _ => k))
  (at level 61, right associativity).

(** [try: body except SQLAlchemyError: handler]. *)
Definition try_except {A} (body handler : M A) : M A :=
  fun w =>
    match body w with
    | (Raise, w') => handler w'
    | r => r
    end.

(** [try: body finally: cleanup]: the cleanup runs on every exit of the
    body, a [return] inside an [except] clause included. *)
Definition try_finally {A} (body : M A) (cleanup : M unit) : M A :=
  fun w =>
    let (r, w') := body w in
    match cleanup w' with
    | (Ok _, w'') => (r, w'')
    | (Abort st, w'') => (Abort st, w'')
    | (Raise, w'') => (Raise, w'')
    end.

Definition abort {A} (status : nat) : M A := fun w => (Abort status, w).

Definition touch (w : World) : World :=
  mkWorld (stored w) (working w) true (calls w) (flashes w).

Definition record (c : Call) (w : World) : World :=
  mkWorld (stored w) (working w) true (calls w ++ [c]) (flashes w).

Definition set_working (db : Database) (w : World) : World :=
  mkWorld (stored w) db (session_open w) (calls w) (flashes w).

(** A read through the session. *)
Definition query {A} (q : Database -> A) : M A :=
  fun w => (Ok (q (working w)), touch w).

(** [T.query.get_or_404(i)]. *)
Definition get_or_404 {T} `{Model T} (i : nat) : M T :=
  fun w =>
    match find_row i (table (working w)) with
    | Some r => (Ok r, touch w)
    | None => (Abort 404, touch w)
    end.

(** What the engine makes of a text that a query compares with an integer
    key column: the integer the text spells ([Key]); a value no row has, as
    for a negative number or in an engine that compares text with integers
    without complaint ([NoKey]); or a rejection of the text, on which the
    statement raises a [SQLAlchemyError] ([BadKey]). *)
Inductive KeyReading : Type :=
| Key (i : nat)
| NoKey
| BadKey.

(** [T.query.get_or_404(ident)] for an [ident] that is the text of a path
    segment: the engine reads the text, then the row is looked up. *)
Definition get_or_404_text {T} `{Model T} (read_key : string -> KeyReading)
    (ident : string) : M T :=
  fun w =>
    match read_key ident with
    | Key i => get_or_404 i w
    | NoKey => (Abort 404, touch w)
    | BadKey => (Raise, touch w)
    end.

(** [db.session.add(x)] for a new object: an INSERT is pending; the row gets
    its key from the engine. *)
Definition session_add_new {T} `{Model T} (x : T) : M T :=
  fun w =>
    let rows := table (working w) in
    let x' := with_pk (fresh_id (map pk rows)) x in
    (Ok x', record Add (set_working (set_table (insert_row x' rows) (working w)) w)).

(** [form.populate_obj(x)] on a row loaded through the session: an UPDATE of
    that row is pending. *)
Definition session_modify {T} `{Model T} (x : T) : M unit :=
  fun w =>
    (Ok tt,
     touch (set_working
              (set_table (update_row x (table (working w))) (working w)) w)).

(** [db.session.add(x)] for a row already in the session: nothing new is
    pending. *)
Definition session_add_loaded : M unit := fun w => (Ok tt, record Add w).

(** [db.session.delete(x)]: a DELETE of the row with that key is pending. *)
Definition session_delete {T} `{Model T} (x : T) : M unit :=
  fun w =>
    (Ok tt,
     record Delete
       (set_working
          (set_table (delete_row (pk x) (table (working w))) (working w)) w)).

(** [db.session.commit()].  Whether the engine accepts the transaction is its
    own decision (constraints, connection); [raises] is that decision.  An
    accepted transaction makes the session's view the committed rows; a
    refused one raises and leaves the committed rows as they were. *)
Definition session_commit (raises : bool) : M unit :=
  fun w =>
    if raises then (Raise, record Commit w)
    else
      (Ok tt,
       record Commit
         (mkWorld (working w) (working w) (session_open w) (calls w)
            (flashes w))).

(** [db.session.rollback()]: the pending changes are dropped. *)
Definition session_rollback : M unit :=
  fun w => (Ok tt, record Rollback (set_working (stored w) w)).

(** [db.session.close()]: pending changes are dropped and the connection is
    released. *)
Definition session_close : M unit :=
  fun w =>
    (Ok tt,
     mkWorld (stored w) (stored w) false (calls w ++ [Close]) (flashes w)).

(** [flash(message)]. *)
Definition flash (message : string) : M unit :=
  fun w =>
    (Ok tt,
     mkWorld (stored w) (working w) (session_open w) (calls w)
       (flashes w ++ [message])).

(** A world as a request finds it: nothing pending, session not yet used. *)
Definition fresh_world (db : Database) : World := mkWorld db db false [] [].

(* ------------------------------------------------------------------------- *)
(** ** Queries *)
(* ------------------------------------------------------------------------- *)

(** [left.join(right)] on the given ON clause: the SQL rows, in table
    order. *)
Definition join {A B} (on : A -> B -> bool) (left : list A) (right : list B)
  : list (A * B) :=
  flat_map (fun a => map (pair a) (filter (on a) right)) left.

(** [Query.count()]: the number of SQL rows. *)
Definition count {R} (rows : list R) : nat := List.length rows.

Definition seen_before (k : list nat) (seen : list (list nat)) : bool :=
  existsb (fun k' => if list_eq_dec Nat.eq_dec k k' then true else false) seen.

Fixpoint unique_list {R} (identity : R -> list nat) (seen : list (list nat))
    (rows : list R) : list R :=
  match rows with
  | [] => []
  | x :: rest =>
      if seen_before (identity x) seen then unique_list identity seen rest
      else x :: unique_list identity (identity x :: seen) rest
  end.

(** [Query.all()] and iteration over a query of mapped entities: the ORM
    yields each entity (each tuple of entities) once, by identity. *)
Definition all {R} (identity : R -> list nat) (rows : list R) : list R :=
  unique_list identity [] rows.

(* ------------------------------------------------------------------------- *)
(** ** Responses *)
(* ------------------------------------------------------------------------- *)

(** One entry of [past_shows] / [upcoming_shows]; both detail routes use the
    same four keys. *)
Module Card.
Record t : Type := mk {
  artist_id : nat;
  artist_name : string;
  artist_image_link : string;
  start_time : Z
}.
End Card.

Record Shows : Type := mkShows {
  past_shows : list Card.t;
  past_shows_count : nat;
  upcoming_shows : list Card.t;
  upcoming_shows_count : nat
}.

Record Area : Type := mkArea {
  area_city : string;
  area_state : string;
  area_venues : list Venue.t
}.

Record SearchResults (R : Type) : Type := mkSearchResults {
  results_count : nat;
  results_data : list R
}.
Arguments mkSearchResults {R} _ _.
Arguments results_count {R} _.
Arguments results_data {R} _.

(** The keyword arguments handed to [render_template]. *)
Inductive Context : Type :=
| NoContext
| AreasPage (areas : list Area)
| ArtistsPage (artists : list (nat * string))
| ShowsPage (shows : list Show.t)
| VenueSearchPage (results : SearchResults Venue.t) (search_term : string)
| ArtistSearchPage (results : SearchResults Artist.t) (search_term : string)
| ShowSearchPage (results : SearchResults Show.t) (search_term : string)
| VenuePage (venue : Venue.t) (listing : Shows)
| ArtistPage (artist : Artist.t) (listing : Shows)
| NewVenueForm (form : VenueForm.t)
| EditVenueForm (form : VenueForm.t) (venue_name : string)
| NewArtistForm (form : ArtistForm.t)
| EditArtistForm (form : ArtistForm.t) (artist_name : string)
| NewShowForm (form : ShowForm.t).

(** [url_for(endpoint, ...)] for the two endpoints redirected to. *)
Inductive Url : Type :=
| show_venue_url (venue_id : nat)
| show_artist_url (artist_id : nat).

Inductive Response : Type :=
| render_template (template_name : string) (context : Context)
| redirect (location : Url)
| body_status (body : string) (status : nat).

(* ------------------------------------------------------------------------- *)
(** ** Controllers *)
(* ------------------------------------------------------------------------- *)

Definition venue_identity (v : Venue.t) : list nat := [Venue.id v].
Definition artist_identity (a : Artist.t) : list nat := [Artist.id a].
Definition show_identity (s : Show.t) : list nat := [Show.id s].

Definition area_eq_dec (x y : string * string) : {x = y} + {x <> y}.
Proof. decide equality; apply string_dec. Defined.

Definition index : M Response :=
  ret (render_template "pages/home.html" NoContext).

(** [venues()]: one group per distinct (state, city). *)
Definition areas_of (db : Database) : list Area :=
  map (fun area : string * string =>
         let (state, city) := area in
         mkArea city state
           (all venue_identity
              (filter (fun v => String.eqb (Venue.state v) state
                                && String.eqb (Venue.city v) city)
                 (venues db))))
    (nodup area_eq_dec
       (map (fun v => (Venue.state v, Venue.city v)) (venues db))).

Definition venues_handler : M Response :=
  data <- query areas_of ;;
  ret (render_template "pages/venues.html" (AreasPage data)).

Definition artists_handler : M Response :=
  data <- query (fun db =>
            map (fun a => (Artist.id a, Artist.name a)) (artists db)) ;;
  ret (render_template "pages/artists.html" (ArtistsPage data)).

(** [db.session.query(Show).join(Artist).join(Venue)]: the SQL rows, each a
    show with the artist and the venue its foreign keys select. *)
Definition show_artist_venue (db : Database)
  : list (Show.t * Artist.t * Venue.t) :=
  join (fun sa v => Venue.id v =? Show.venue_id (fst sa))
    (join (fun s a => Artist.id a =? Show.artist_id s) (shows db)
       (artists db))
    (venues db).

Definition shows_query (db : Database) : list Show.t :=
  map (fun r => fst (fst r)) (show_artist_venue db).

Definition shows_handler : M Response :=
  data <- query (fun db => all show_identity (shows_query db)) ;;
  ret (render_template "pages/shows.html" (ShowsPage data)).

(** [db.session.query(Artist, Show).join(Show).join(Venue)]. *)
Definition artist_show_venue (db : Database)
  : list (Artist.t * Show.t * Venue.t) :=
  join (fun as_ v => Venue.id v =? Show.venue_id (snd as_))
    (join (fun a s => Show.artist_id s =? Artist.id a) (artists db)
       (shows db))
    (venues db).

(** [db.session.query(Venue, Show).join(Show).join(Artist)]. *)
Definition venue_show_artist (db : Database)
  : list (Venue.t * Show.t * Artist.t) :=
  join (fun vs a => Artist.id a =? Show.artist_id (snd vs))
    (join (fun v s => Show.venue_id s =? Venue.id v) (venues db)
       (shows db))
    (artists db).

Definition pair_identity {A B} `{Model A} `{Model B} (r : A * B) : list nat :=
  [pk (fst r); pk (snd r)].

(** The two filtered queries of [show_venue], lines 99-111.  Each calls
    [datetime.now()] on its own; [now] is the value that call returned. *)
Definition venue_past_shows (venue_id : nat) (now : Z) (db : Database)
  : list (Artist.t * Show.t) :=
  map fst
    (filter (fun r : Artist.t * Show.t * Venue.t =>
               let artist := fst (fst r) in
               let show := snd (fst r) in
               (Show.venue_id show =? venue_id)
               && (Show.artist_id show =? Artist.id artist)
               && (Show.start_time show <? now)%Z)
       (artist_show_venue db)).

Definition venue_upcoming_shows (venue_id : nat) (now : Z) (db : Database)
  : list (Artist.t * Show.t) :=
  map fst
    (filter (fun r : Artist.t * Show.t * Venue.t =>
               let artist := fst (fst r) in
               let show := snd (fst r) in
               (Show.venue_id show =? venue_id)
               && (Show.artist_id show =? Artist.id artist)
               && (Show.start_time show >=? now)%Z)
       (artist_show_venue db)).

Definition artist_card (r : Artist.t * Show.t) : Card.t :=
  let (artist, show) := r in
  Card.mk (Artist.id artist) (Artist.name artist) (Artist.image_link artist)
    (Show.start_time show).

(** The four show entries of the [data] dictionary of [show_venue]. *)
Definition venue_listing (venue_id : nat) (now_past now_upcoming : Z)
    (db : Database) : Shows :=
  let past_shows := venue_past_shows venue_id now_past db in
  let upcoming_shows := venue_upcoming_shows venue_id now_upcoming db in
  mkShows
    (map artist_card (all pair_identity past_shows))
    (count past_shows)
    (map artist_card (all pair_identity upcoming_shows))
    (count upcoming_shows).

Definition show_venue (venue_id : nat) (now_past now_upcoming : Z)
  : M Response :=
  venue <- get_or_404 venue_id ;;
  data <- query (venue_listing venue_id now_past now_upcoming) ;;
  ret (render_template "pages/show_venue.html" (VenuePage venue data)).

(** The two filtered queries of [show_artist], lines 260-273: the first
    filter compares [Show.venue_id] with [artist_id], as written. *)
Definition artist_past_shows (artist_id : nat) (now : Z) (db : Database)
  : list (Venue.t * Show.t) :=
  map fst
    (filter (fun r : Venue.t * Show.t * Artist.t =>
               let show := snd (fst r) in
               let artist := snd r in
               (Show.venue_id show =? artist_id)
               && (Show.artist_id show =? Artist.id artist)
               && (Show.start_time show <? now)%Z)
       (venue_show_artist db)).

Definition artist_upcoming_shows (artist_id : nat) (now : Z) (db : Database)
  : list (Venue.t * Show.t) :=
  map fst
    (filter (fun r : Venue.t * Show.t * Artist.t =>
               let show := snd (fst r) in
               let artist := snd r in
               (Show.venue_id show =? artist_id)
               && (Show.artist_id show =? Artist.id artist)
               && (Show.start_time show >=? now)%Z)
       (venue_show_artist db)).

Definition venue_card (r : Venue.t * Show.t) : Card.t :=
  let (venue, show) := r in
  Card.mk (Venue.id venue) (Venue.name venue) (Venue.image_link venue)
    (Show.start_time show).

(** The four show entries of the [data] dictionary of [show_artist]. *)
Definition artist_listing (artist_id : nat) (now_past now_upcoming : Z)
    (db : Database) : Shows :=
  let past_shows := artist_past_shows artist_id now_past db in
  let upcoming_shows := artist_upcoming_shows artist_id now_upcoming db in
  mkShows
    (map venue_card (all pair_identity past_shows))
    (count past_shows)
    (map venue_card (all pair_identity upcoming_shows))
    (count upcoming_shows).

Definition show_artist (artist_id : nat) (now_past now_upcoming : Z)
  : M Response :=
  artist <- get_or_404 artist_id ;;
  data <- query (artist_listing artist_id now_past now_upcoming) ;;
  ret (render_template "pages/show_artist.html" (ArtistPage artist data)).

Section Handlers.

(** The engine's [LIKE] dialect, the declarations of [forms.py], and the
    engine's reading of a text as an integer key. *)
Variable d : Dialect.
Variable forms : Validators.
Variable read_key : string -> KeyReading.

(** *** Search *)

Definition venues_query (q : string) (db : Database) : list Venue.t :=
  filter (fun v => ilike d (Venue.name v) (search_pattern q)) (venues db).

(** The [response] dictionary: the count query and the rows the template
    iterates over. *)
Definition venues_response (q : string) (db : Database)
  : SearchResults Venue.t :=
  let venues_query := venues_query q db in
  mkSearchResults (count venues_query) (all venue_identity venues_query).

Definition search_venues (q : string) : M Response :=
  response <- query (venues_response q) ;;
  ret (render_template "pages/search_venues.html"
         (VenueSearchPage response q)).

Definition artists_query (q : string) (db : Database) : list Artist.t :=
  filter (fun a => ilike d (Artist.name a) (search_pattern q)) (artists db).

Definition artists_response (q : string) (db : Database)
  : SearchResults Artist.t :=
  let artists_query := artists_query q db in
  mkSearchResults (count artists_query) (all artist_identity artists_query).

Definition search_artists (q : string) : M Response :=
  response <- query (artists_response q) ;;
  ret (render_template "pages/search_artists.html"
         (ArtistSearchPage response q)).

Definition shows_search_query (search_term : string) (db : Database)
  : list Show.t :=
  let q := search_pattern search_term in
  map (fun r => fst (fst r))
    (filter (fun r : Show.t * Artist.t * Venue.t =>
               ilike d (Venue.name (snd r)) q
               || ilike d (Artist.name (snd (fst r))) q)
       (show_artist_venue db)).

Definition shows_response (search_term : string) (db : Database)
  : SearchResults Show.t :=
  let shows_query := shows_search_query search_term db in
  mkSearchResults (count shows_query) (all show_identity shows_query).

Definition search_shows (search_term : string) : M Response :=
  response <- query (shows_response search_term) ;;
  ret (render_template "pages/search_shows.html"
         (ShowSearchPage response search_term)).

(** *** Venues: create, edit, delete *)

(** The [try] blocks below yield [inl response] where the Python returns
    from inside the [except] clause and [inr x] where control falls out of
    the [try] statement.  [print(sys.exc_info())] only writes to the
    console and is left out. *)

Definition create_venue (req : Request VenueForm.t) (commit_raises : bool)
  : M Response :=
  let form := bound_form req (unbound_venue forms) in
  if validate_on_submit (validate_venue forms) req then
    let venue := VenueForm.populate_obj form blank_venue in
    r <- try_except
           (venue <- session_add_new venue ;;
            session_commit commit_raises ;;;
            ret (inr venue))
           (session_rollback ;;;
            session_close ;;;
            flash ("An error occurred. Venue " ++ VenueForm.name form
                   ++ " could not be listed.")%string ;;;
            ret (inl (render_template "forms/new_venue.html"
                        (NewVenueForm form)))) ;;
    match r with
    | inl response => ret response
    | inr venue =>
        flash ("Venue " ++ Venue.name venue
               ++ " was successfully listed!")%string ;;;
        ret (redirect (show_venue_url (Venue.id venue)))
    end
  else ret (render_template "forms/new_venue.html" (NewVenueForm form)).

Definition edit_venue (venue_id : nat) (req : Request VenueForm.t)
    (commit_raises : bool) : M Response :=
  venue <- get_or_404 venue_id ;;
  let form := bound_form req (VenueForm.of_obj venue) in
  let venue_name := Venue.name venue in
  if validate_on_submit (validate_venue forms) req then
    let venue := VenueForm.populate_obj form venue in
    session_modify venue ;;;
    r <- try_except
           (session_add_loaded ;;;
            session_commit commit_raises ;;;
            ret (inr tt))
           (session_rollback ;;;
            session_close ;;;
            flash ("An error occurred. Venue " ++ venue_name
                   ++ " could not be edited.")%string ;;;
            ret (inl (render_template "forms/edit_venue.html"
                        (EditVenueForm form venue_name)))) ;;
    match r with
    | inl response => ret response
    | inr _ =>
        flash ("Venue " ++ Venue.name venue
               ++ " was successfully updated!")%string ;;;
        ret (redirect (show_venue_url venue_id))
    end
  else
    ret (render_template "forms/edit_venue.html"
           (EditVenueForm form venue_name)).

(** The route is ['/venues/<venue_id>'], with no [int] converter: [venue_id]
    is the text of the path segment, and [get_or_404] stands before the
    [try]. *)
Definition delete_venue (venue_id : string) (commit_raises : bool)
  : M Response :=
  v <- get_or_404_text read_key venue_id ;;
  r <- try_finally
         (try_except
            (session_delete v ;;;
             session_commit commit_raises ;;;
             ret (inr tt))
            (session_rollback ;;;
             flash ("An error occurred. Venue " ++ Venue.name v
                    ++ " could not be deleted.")%string ;;;
             ret (inl (body_status "" 500))))
         session_close ;;
  match r with
  | inl response => ret response
  | inr _ => ret (body_status "" 204)
  end.

(** *** Artists: create, edit, delete *)

Definition create_artist (req : Request ArtistForm.t) (commit_raises : bool)
  : M Response :=
  let form := bound_form req (unbound_artist forms) in
  if validate_on_submit (validate_artist forms) req then
    let artist := ArtistForm.populate_obj form blank_artist in
    r <- try_except
           (artist <- session_add_new artist ;;
            session_commit commit_raises ;;;
            ret (inr artist))
           (flash ("An error occurred. Artist " ++ ArtistForm.name form
                   ++ " could not be listed.")%string ;;;
            session_rollback ;;;
            session_close ;;;
            ret (inl (render_template "forms/new_artist.html"
                        (NewArtistForm form)))) ;;
    match r with
    | inl response => ret response
    | inr artist =>
        flash ("Artist " ++ Artist.name artist
               ++ " was successfully listed!")%string ;;;
        ret (redirect (show_artist_url (Artist.id artist)))
    end
  else ret (render_template "forms/new_artist.html" (NewArtistForm form)).

Definition edit_artist (artist_id : nat) (req : Request ArtistForm.t)
    (commit_raises : bool) : M Response :=
  artist <- get_or_404 artist_id ;;
  let form := bound_form req (ArtistForm.of_obj artist) in
  let artist_name := Artist.name artist in
  if validate_on_submit (validate_artist forms) req then
    let artist := ArtistForm.populate_obj form artist in
    session_modify artist ;;;
    r <- try_except
           (session_add_loaded ;;;
            session_commit commit_raises ;;;
            ret (inr tt))
           (flash ("An error occurred. Artist " ++ artist_name
                   ++ " could not be edited.")%string ;;;
            session_rollback ;;;
            session_close ;;;
            ret (inl (render_template "forms/edit_artist.html"
                        (EditArtistForm form artist_name)))) ;;
    match r with
    | inl response => ret response
    | inr _ => ret (redirect (show_artist_url artist_id))
    end
  else
    ret (render_template "forms/edit_artist.html"
           (EditArtistForm form artist_name)).

(** The route is ['/artists/<artist_id>'], with no [int] converter, as for
    venues. *)
Definition delete_artist (artist_id : string) (commit_raises : bool)
  : M Response :=
  a <- get_or_404_text read_key artist_id ;;
  r <- try_except
         (session_delete a ;;;
          session_commit commit_raises ;;;
          ret (inr tt))
         (session_rollback ;;;
          flash ("An error occurred. Artist " ++ Artist.name a
                 ++ " could not be deleted.")%string ;;;
          session_close ;;;
          ret (inl (body_status "" 500))) ;;
  match r with
  | inl response => ret response
  | inr _ => ret (body_status "" 204)
  end.

(** *** Shows: create *)

Definition create_show (req : Request ShowForm.t) (commit_raises : bool)
  : M Response :=
  let form := bound_form req (unbound_show forms) in
  if validate_on_submit (validate_show forms) req then
    let show := ShowForm.populate_obj form blank_show in
    r <- try_except
           (show <- session_add_new show ;;
            session_commit commit_raises ;;;
            ret (inr show))
           (session_rollback ;;;
            session_close ;;;
            flash "An error occurred. Show could not be listed." ;;;
            ret (inl (render_template "forms/new_show.html"
                        (NewShowForm form)))) ;;
    match r with
    | inl response => ret response
    | inr _ =>
        flash "Show was successfully listed!" ;;;
        ret (render_template "pages/home.html" NoContext)
    end
  else ret (render_template "forms/new_show.html" (NewShowForm form)).

End Handlers.

(** The application's handler for an aborted request
    ([@app.errorhandler(404)]): the error page with the matching status. *)
Definition not_found_error : Response * nat :=
  (render_template "errors/404.html" NoContext, 404).

(* ------------------------------------------------------------------------- *)
(** ** Sample data *)
(* ------------------------------------------------------------------------- *)

Definition fillmore : Venue.t :=
  Venue.mk 1 "The Fillmore" ["Rock"; "Jazz"] "San Francisco" "CA"
    "1805 Geary Blvd" "" "" "" false "" "".

Definition jazz_club : Venue.t :=
  Venue.mk 2 "Jazz Club" ["Jazz"] "New York" "NY" "335 Delancey St" "" "" ""
    true "" "".

Definition petals : Artist.t :=
  Artist.mk 1 "Guns N Petals" ["Rock"] "San Francisco" "CA" "" "" "" true ""
    "".

Definition quevedo : Artist.t :=
  Artist.mk 2 "Matt Quevedo" ["Jazz"] "New York" "NY" "" "" "" false "" "".

(** Guns N Petals (artist 1) played the Jazz Club (venue 2) at time 100;
    Matt Quevedo (artist 2) plays The Fillmore (venue 1) at time 300. *)
Definition petals_at_jazz_club : Show.t := Show.mk 1 2 1 100.
Definition quevedo_at_fillmore : Show.t := Show.mk 2 1 2 300.

Definition sample_db : Database :=
  mkDatabase [fillmore; jazz_club] [petals; quevedo]
    [petals_at_jazz_club; quevedo_at_fillmore].

Definition fillmore_form : VenueForm.t := VenueForm.of_obj fillmore.
Definition petals_form : ArtistForm.t := ArtistForm.of_obj petals.
Definition sample_show_form : ShowForm.t := ShowForm.mk 2 2 500.

(** Validators that ask for a name, and for a show that its keys are set;
    fields without defaults. *)
Definition sample_forms : Validators :=
  mkValidators
    (fun f => negb (String.eqb (VenueForm.name f) ""))
    (fun f => negb (String.eqb (ArtistForm.name f) ""))
    (fun f => negb (ShowForm.artist_id f =? 0)
              && negb (ShowForm.venue_id f =? 0))
    (VenueForm.of_obj blank_venue)
    (ArtistForm.of_obj blank_artist)
    (ShowForm.mk 0 0 0%Z).

Fixpoint digits_value (acc : nat) (text : list ascii) : option nat :=
  match text with
  | [] => Some acc
  | c :: rest =>
      let n := nat_of_ascii c in
      if Nat.leb 48 n && Nat.leb n 57
      then digits_value (10 * acc + (n - 48)) rest
      else None
  end.

(** An engine reading to run the delete routes on: unsigned decimal text is
    the key it spells; text with any other character (and the empty text) is
    no integer and is rejected, as PostgreSQL rejects ['abc'] for an integer
    column. *)
Definition digits_key (text : string) : KeyReading :=
  match chars text with
  | [] => BadKey
  | c :: rest =>
      match digits_value 0 (c :: rest) with
      | Some i => Key i
      | None => BadKey
      end
  end.

(* ------------------------------------------------------------------------- *)
(** ** Integrity of the stored rows *)
(* ------------------------------------------------------------------------- *)

(** Primary keys identify rows. *)
Definition keys_unique (db : Database) : Prop :=
  NoDup (map Venue.id (venues db))
  /\ NoDup (map Artist.id (artists db))
  /\ NoDup (map Show.id (shows db)).

(** Referential integrity: the two foreign keys of a show select rows. *)
Definition references_exist (db : Database) : Prop :=
  forall s, In s (shows db) ->
    (exists v, In v (venues db) /\ Venue.id v = Show.venue_id s)
    /\ (exists a, In a (artists db) /\ Artist.id a = Show.artist_id s).

(** A pattern character that stands for itself in the dialect [d]. *)
Definition plain_char (d : Dialect) (c : ascii) : bool :=
  negb (is_escape d c) && negb (Ascii.eqb c percent)
  && negb (Ascii.eqb c underscore).

(** A search term free of [%], [_] and the dialect's escape character. *)
Definition plain_term (d : Dialect) (q : string) : bool :=
  forallb (plain_char d) (chars q).

(* ------------------------------------------------------------------------- *)
(** ** Observations on a finished request *)
(* ------------------------------------------------------------------------- *)

(** What the [except] clause of a create or edit route leaves behind when it
    ran in [w] and ended in [w']: the committed rows are those of [w], nothing
    is pending, the session is closed after [add; commit; rollback; close],
    and exactly [message] was flashed. *)
Definition recovered_from_failed_commit (w w' : World) (message : string)
  : Prop :=
  stored w' = stored w
  /\ working w' = stored w
  /\ session_open w' = false
  /\ calls w' = calls w ++ [Add; Commit; Rollback; Close]
  /\ flashes w' = flashes w ++ [message].

(** A request that touched neither the rows, nor the transaction, nor the
    flashed messages. *)
Definition nothing_written (w w' : World) : Prop :=
  stored w' = stored w
  /\ working w' = working w
  /\ calls w' = calls w
  /\ flashes w' = flashes w.

(* ------------------------------------------------------------------------- *)
(** ** The [datetime] template filter *)
(* ------------------------------------------------------------------------- *)

(** A value handed to the filter: a [datetime] or a string to parse. *)
Inductive DateValue : Type :=
| a_datetime (date : Z)
| a_string (text : string).

(** [format_datetime], lines 39-48.  [dateutil.parser.parse] and
    [babel.dates.format_datetime] are library functions, taken as given: the
    parser yields no date where it raises. *)
Definition format_datetime
    (parse : string -> option Z) (babel_format : Z -> string -> string)
    (value : DateValue) (format_name : string) : option string :=
  let date :=
    match value with
    | a_datetime date => Some date
    | a_string text => parse text
    end in
  let datetime_format := "EE MM, dd, y h:mma" in
  let datetime_format :=
    if String.eqb format_name "full" then "EEEE MMMM, d, y 'at' h:mma"
    else if String.eqb format_name "medium" then "EE MM, dd, y h:mma"
    else datetime_format in
  match date with
  | Some date => Some (babel_format date datetime_format)
  | None => None
  end.

(* ------------------------------------------------------------------------- *)
(** ** Names for rows and groups the routes produce *)
(* ------------------------------------------------------------------------- *)

(** The (state, city) pair an area of the venue listing stands for. *)
Definition area_key (area : Area) : string * string :=
  (area_state area, area_city area).

(** The filter [Venue.state == state, Venue.city == city] of [venues()]. *)
Definition in_area (key : string * string) (v : Venue.t) : bool :=
  String.eqb (Venue.state v) (fst key) && String.eqb (Venue.city v) (snd key).

(** The rows a create route inserts for the submitted form, with the key the
    engine gives them. *)
Definition new_venue (w : World) (req : Request VenueForm.t) : Venue.t :=
  with_pk (fresh_id (map Venue.id (venues (working w))))
    (VenueForm.populate_obj (formdata req) blank_venue).

Definition new_artist (w : World) (req : Request ArtistForm.t) : Artist.t :=
  with_pk (fresh_id (map Artist.id (artists (working w))))
    (ArtistForm.populate_obj (formdata req) blank_artist).

Definition new_show (w : World) (req : Request ShowForm.t) : Show.t :=
  with_pk (fresh_id (map Show.id (shows (working w))))
    (ShowForm.populate_obj (formdata req) blank_show).

(** A form that renames and moves The Fillmore. *)
Definition renamed_fillmore_form : VenueForm.t :=
  VenueForm.of_obj
    (Venue.mk 1 "Fillmore West" ["Rock"] "San Francisco" "CA"
       "10 South Van Ness" "" "" "" false "" "").

(** A parser that rejects the empty string and a formatter that shows the
    pattern it was given, to run the filter on. *)
Definition sample_parse (text : string) : option Z :=
  if String.eqb text "" then None else Some 0%Z.

Definition sample_babel_format (date : Z) (pattern : string) : string :=
  pattern.

(* ------------------------------------------------------------------------- *)
(** ** The LIKE filter *)
(* ------------------------------------------------------------------------- *)

Section LikeFacts.
Variable d : Dialect.

Lemma percent_not_escape : is_escape d percent = false.
Proof. destruct d; reflexivity. Qed.


Lemma like_percent (p s : list ascii) :
  like_match d (percent :: p) s
  = like_match d p s
    || match s with
       | [] => false
       | _ :: s' => like_match d (percent :: p) s'
       end.
Proof.
  cbn [like_match]. rewrite percent_not_escape.
  change (Ascii.eqb percent percent) with true. cbv iota.
  destruct s; reflexivity.
Qed.


Lemma like_plain (c : ascii) (p s : list ascii) :
  plain_char d c = true ->
  like_match d (c :: p) s
  = match s with
    | [] => false
    | x :: s' => Ascii.eqb x c && like_match d p s'
    end.
Proof.
  unfold plain_char. intros H.
  apply andb_prop in H as [H Hu]. apply andb_prop in H as [He Hp].
  apply negb_true_iff in He, Hp, Hu.
  cbn [like_match]. rewrite He, Hp, Hu. reflexivity.
Qed.

Lemma like_only_percent (s : list ascii) : like_match d [percent] s = true.
Proof.
  induction s as [|x s IH]; rewrite like_percent.
  - reflexivity.
  - rewrite IH. apply orb_true_r.
Qed.


Lemma like_plain_prefix (q : list ascii) :
  forallb (plain_char d) q = true ->
  forall s, like_match d (q ++ [percent]) s = is_prefix q s.
Proof.
  induction q as [|c q IH]; intros Hq s.
  - apply like_only_percent.
  - cbn [forallb] in Hq. apply andb_prop in Hq as [Hc Hq].
    cbn [app]. rewrite (like_plain _ _ _ Hc).
    destruct s as [|x s]; [reflexivity|].
    cbn [is_prefix]. rewrite (IH Hq). reflexivity.
Qed.

Lemma like_plain_infix (q : list ascii) :
  forallb (plain_char d) q = true ->
  forall s, like_match d (percent :: q ++ [percent]) s = is_infix q s.
Proof.
  intros Hq. induction s as [|x s IH]; rewrite like_percent.
  - rewrite (like_plain_prefix _ Hq). reflexivity.
  - rewrite (like_plain_prefix _ Hq), IH. reflexivity.
Qed.

Lemma lower_plain (c : ascii) :
  plain_char d c = true -> plain_char d (lower_char c) = true.
Proof.
  destruct d, c as [[] [] [] [] [] [] [] []]; vm_compute; trivial.
Qed.

Lemma lower_plain_all (q : list ascii) :
  forallb (plain_char d) q = true -> forallb (plain_char d) (lower q) = true.
Proof.
  induction q as [|c q IH]; cbn [forallb lower map]; [trivial|].
  intros H. apply andb_prop in H as [Hc Hq].
  rewrite (lower_plain _ Hc). apply IH, Hq.
Qed.
End LikeFacts.

Lemma chars_app (s t : string) : chars (s ++ t) = chars s ++ chars t.
Proof.
  unfold chars. induction s as [|c s IH]; cbn; [reflexivity|].
  now rewrite IH.
Qed.

Lemma lower_pattern (q : string) :
  lower (chars (search_pattern q)) = percent :: lower (chars q) ++ [percent].
Proof.
  unfold search_pattern. rewrite !chars_app. unfold lower.
  rewrite !map_app. reflexivity.
Qed.

Lemma ilike_plain (d : Dialect) (q name : string) :
  plain_term d q = true ->
  ilike d name (search_pattern q) = contains_ci q name.
Proof.
  intros Hq. unfold ilike, contains_ci. rewrite lower_pattern.
  apply like_plain_infix, lower_plain_all, Hq.
Qed.

Lemma is_infix_nil (s : list ascii) : is_infix [] s = true.
Proof. destruct s; reflexivity. Qed.

Lemma ilike_empty_term (d : Dialect) (name : string) :
  ilike d name (search_pattern "") = true.
Proof.
  rewrite ilike_plain by reflexivity. apply is_infix_nil.
Qed.



Example jazz_matches_Jazz_Club (d : Dialect) :
  ilike d "Jazz Club" (search_pattern "jazz") = true.
Proof. destruct d; vm_compute; reflexivity. Qed.

(* ------------------------------------------------------------------------- *)
(** ** Joins, keys and the uniquing of rows *)
(* ------------------------------------------------------------------------- *)

Section ListFacts.
Context {A B : Type}.

Lemma in_join (on : A -> B -> bool) (l : list A) (r : list B) (a : A) (b : B) :
  In (a, b) (join on l r) <-> In a l /\ In b r /\ on a b = true.
Proof.
  unfold join. rewrite in_flat_map. split.
  - intros (a' & Ha & Hin). apply in_map_iff in Hin as (b' & E & Hb).
    inversion E; subst. apply filter_In in Hb. tauto.
  - intros (Ha & Hb & Hon). exists a. split; [assumption|].
    apply in_map, filter_In. tauto.
Qed.

Lemma join_cons (on : A -> B -> bool) (a : A) (l : list A) (r : list B) :
  join on (a :: l) r = map (pair a) (filter (on a) r) ++ join on l r.
Proof. reflexivity. Qed.

(** A join that finds exactly one partner for each left row keeps the left
    rows as they are. *)
Lemma join_total (on : A -> B -> bool) (l : list A) (r : list B) :
  (forall a, In a l -> exists b, filter (on a) r = [b]) ->
  map fst (join on l r) = l.
Proof.
  induction l as [|a l IH]; intros H; [reflexivity|].
  rewrite join_cons, map_app, IH by (intros; apply H; now right).
  destruct (H a (or_introl eq_refl)) as [b ->]. reflexivity.
Qed.

(** A join that finds at most one partner for each left row keeps the left
    keys distinct. *)
Lemma join_keys (K : Type) (key : A -> K) (on : A -> B -> bool)
    (l : list A) (r : list B) :
  NoDup (map key l) ->
  (forall a, In a l -> List.length (filter (on a) r) <= 1) ->
  NoDup (map (fun x => key (fst x)) (join on l r)).
Proof.
  induction l as [|a l IH]; intros Hnd H; [constructor|].
  cbn [map] in Hnd. inversion Hnd as [|? ? Hnotin Hnd']; subst.
  rewrite join_cons, map_app. apply NoDup_app.
  - specialize (H a (or_introl eq_refl)).
    destruct (filter (on a) r) as [|b [|b' t]]; cbn in *;
      [constructor | | lia].
    constructor; [intros [] | constructor].
  - apply IH; [assumption | intros; apply H; now right].
  - intros k Hk1 Hk2. apply in_map_iff in Hk1 as ([a1 b1] & <- & Hin1).
    apply in_map_iff in Hin1 as (b2 & E & _). inversion E; subst.
    apply in_map_iff in Hk2 as ([a2 b2'] & E2 & Hin2).
    apply in_join in Hin2 as (Ha2 & _). cbn in E2.
    apply Hnotin. rewrite <- E2. now apply in_map.
Qed.

Lemma filter_keeps_keys (K : Type) (key : A -> K) (p : A -> bool)
    (l : list A) :
  NoDup (map key l) -> NoDup (map key (filter p l)).
Proof.
  induction l as [|a l IH]; intros Hnd; [constructor|].
  cbn [map] in Hnd. inversion Hnd as [|? ? Hnotin Hnd']; subst.
  cbn [filter]. destruct (p a); [|now apply IH].
  cbn [map]. constructor; [|now apply IH].
  intros Hin. apply Hnotin. apply in_map_iff in Hin as (x & <- & Hx).
  apply in_map. apply filter_In in Hx. tauto.
Qed.

Lemma filter_none (p : A -> bool) (l : list A) :
  (forall a, In a l -> p a = false) -> filter p l = [].
Proof.
  induction l as [|a l IH]; intros H; [reflexivity|].
  cbn [filter]. rewrite (H a (or_introl eq_refl)).
  apply IH. intros; apply H; now right.
Qed.

Lemma filter_every (p : A -> bool) (l : list A) :
  (forall a, In a l -> p a = true) -> filter p l = l.
Proof.
  intros H. apply forallb_filter_id, forallb_forall, H.
Qed.
End ListFacts.

Section KeyFacts.
Context {T : Type} (key : T -> nat).

Lemma filter_key_absent (k : nat) (l : list T) :
  ~ In k (map key l) -> filter (fun r => key r =? k) l = [].
Proof.
  intros H. apply filter_none. intros a Ha.
  apply Nat.eqb_neq. intros <-. apply H. now apply in_map.
Qed.

Lemma filter_key_single (x : T) (l : list T) :
  NoDup (map key l) -> In x l ->
  filter (fun r => key r =? key x) l = [x].
Proof.
  induction l as [|a l IH]; intros Hnd Hin; [destruct Hin|].
  cbn [map] in Hnd. inversion Hnd as [|? ? Hnotin Hnd']; subst.
  cbn [filter]. destruct Hin as [-> | Hin].
  - rewrite Nat.eqb_refl, filter_key_absent by assumption. reflexivity.
  - destruct (Nat.eqb_spec (key a) (key x)) as [E | _].
    + exfalso. apply Hnotin. rewrite E. now apply in_map.
    + now apply IH.
Qed.

Lemma filter_key_short (k : nat) (l : list T) :
  NoDup (map key l) ->
  List.length (filter (fun r => key r =? k) l) <= 1.
Proof.
  induction l as [|a l IH]; intros Hnd; [cbn; lia|].
  cbn [map] in Hnd. inversion Hnd as [|? ? Hnotin Hnd']; subst.
  cbn [filter]. destruct (Nat.eqb_spec (key a) k) as [E | _].
  - subst k. rewrite filter_key_absent by assumption. cbn; lia.
  - now apply IH.
Qed.
End KeyFacts.

Section UniqueFacts.
Context {R : Type} (identity : R -> list nat).

Lemma seen_before_cons (k k' : list nat) (seen : list (list nat)) :
  k <> k' -> seen_before k (k' :: seen) = seen_before k seen.
Proof.
  intros Hne. unfold seen_before. cbn [existsb].
  destruct (list_eq_dec Nat.eq_dec k k'); [contradiction | reflexivity].
Qed.

Lemma unique_list_distinct (rows : list R) :
  NoDup (map identity rows) ->
  forall seen,
    (forall x, In x rows -> seen_before (identity x) seen = false) ->
    unique_list identity seen rows = rows.
Proof.
  induction rows as [|x rows IH]; intros Hnd seen Hseen; [reflexivity|].
  cbn [map] in Hnd. inversion Hnd as [|? ? Hnotin Hnd']; subst.
  cbn [unique_list]. rewrite (Hseen x (or_introl eq_refl)).
  f_equal. apply IH; [assumption|].
  intros y Hy. rewrite seen_before_cons; [apply Hseen; now right|].
  intros E. apply Hnotin. rewrite <- E. now apply in_map.
Qed.

(** On rows of distinct identity the ORM hands back every SQL row. *)
Lemma all_distinct (rows : list R) :
  NoDup (map identity rows) -> all identity rows = rows.
Proof.
  intros Hnd. apply unique_list_distinct; [assumption | reflexivity].
Qed.
End UniqueFacts.

Lemma all_by_key {R : Type} (key : R -> nat) (rows : list R) :
  NoDup (map key rows) -> all (fun r => [key r]) rows = rows.
Proof.
  intros Hnd. apply all_distinct.
  rewrite <- (map_map key (fun k => [k])).
  apply NoDup_map_NoDup_ForallPairs; [|assumption].
  intros a b _ _ E. now inversion E.
Qed.

Section JoinedShows.
Variable db : Database.
Hypothesis Hkeys : keys_unique db.

Lemma show_rows_keys :
  NoDup (map (fun r => Show.id (fst (fst r))) (show_artist_venue db)).
Proof.
  destruct Hkeys as (Hv & Ha & Hs). unfold show_artist_venue.
  apply (join_keys nat (fun sa : Show.t * Artist.t => Show.id (fst sa))).
  - apply (join_keys nat Show.id); [assumption|].
    intros s _. now apply filter_key_short.
  - intros sa _. now apply filter_key_short.
Qed.

Lemma filtered_show_keys (p : Show.t * Artist.t * Venue.t -> bool) :
  NoDup (map Show.id
           (map (fun r => fst (fst r)) (filter p (show_artist_venue db)))).
Proof.
  rewrite map_map. apply filter_keeps_keys, show_rows_keys.
Qed.

Lemma in_show_rows (s : Show.t) (a : Artist.t) (v : Venue.t) :
  In (s, a, v) (show_artist_venue db)
  <-> In s (shows db)
      /\ In a (artists db) /\ Artist.id a = Show.artist_id s
      /\ In v (venues db) /\ Venue.id v = Show.venue_id s.
Proof.
  unfold show_artist_venue. rewrite !in_join. cbn [fst].
  rewrite !Nat.eqb_eq. tauto.
Qed.

Hypothesis Hrefs : references_exist db.

Lemma shows_query_total : shows_query db = shows db.
Proof.
  destruct Hkeys as (Hv & Ha & Hs). unfold shows_query, show_artist_venue.
  rewrite <- (map_map fst fst).
  rewrite join_total.
  - apply join_total. intros s Hin.
    destruct (Hrefs s Hin) as (_ & a & Hina & Ea).
    exists a. rewrite <- Ea. now apply filter_key_single.
  - intros [s a] Hin. apply in_join in Hin as (Hin & _).
    destruct (Hrefs s Hin) as ((v & Hinv & Ev) & _).
    exists v. cbn [fst]. rewrite <- Ev. now apply filter_key_single.
Qed.
End JoinedShows.

Section SearchFacts.
Variable d : Dialect.

Lemma venues_response_data (q : string) (db : Database) :
  keys_unique db ->
  results_data (venues_response d q db) = venues_query d q db.
Proof.
  intros (Hv & _). apply (all_by_key Venue.id).
  now apply filter_keeps_keys.
Qed.

Lemma artists_response_data (q : string) (db : Database) :
  keys_unique db ->
  results_data (artists_response d q db) = artists_query d q db.
Proof.
  intros (_ & Ha & _). apply (all_by_key Artist.id).
  now apply filter_keeps_keys.
Qed.

Lemma shows_response_data (q : string) (db : Database) :
  keys_unique db ->
  results_data (shows_response d q db) = shows_search_query d q db.
Proof.
  intros Hk. apply (all_by_key Show.id). now apply filtered_show_keys.
Qed.

Lemma in_shows_search (q : string) (db : Database) (s : Show.t) :
  In s (shows_search_query d q db)
  <-> In s (shows db)
      /\ exists a v,
           In a (artists db) /\ Artist.id a = Show.artist_id s
           /\ In v (venues db) /\ Venue.id v = Show.venue_id s
           /\ (ilike d (Venue.name v) (search_pattern q) = true
               \/ ilike d (Artist.name a) (search_pattern q) = true).
Proof.
  unfold shows_search_query. rewrite in_map_iff. split.
  - intros ([[s' a] v] & E & Hin). cbn in E. subst s'.
    apply filter_In in Hin as (Hin & Hp). cbn [fst snd] in Hp.
    apply in_show_rows in Hin. apply orb_true_iff in Hp.
    split; [tauto|]. exists a, v. tauto.
  - intros (Hs & a & v & Ha & Ea & Hv & Ev & Hp).
    exists (s, a, v). split; [reflexivity|].
    apply filter_In. split; [apply in_show_rows; tauto|].
    cbn [fst snd]. apply orb_true_iff, Hp.
Qed.
End SearchFacts.

(* ------------------------------------------------------------------------- *)
(** ** Search routes *)
(* ------------------------------------------------------------------------- *)

Ltac distinct_keys :=
  repeat (constructor; [cbn; intuition discriminate|]); constructor.

Lemma sample_keys_unique : keys_unique sample_db.
Proof. repeat split; cbn; distinct_keys. Qed.

Lemma sample_references_exist : references_exist sample_db.
Proof.
  intros s [<- | [<- | []]]; split; cbn.
  - exists jazz_club. auto.
  - exists petals. auto.
  - exists fillmore. auto.
  - exists quevedo. auto.
Qed.

Section SearchTerms.
Variable d : Dialect.

Lemma venues_query_empty_term (db : Database) :
  venues_query d "" db = venues db.
Proof.
  apply filter_every. intros v _. apply ilike_empty_term.
Qed.

Lemma artists_query_empty_term (db : Database) :
  artists_query d "" db = artists db.
Proof.
  apply filter_every. intros a _. apply ilike_empty_term.
Qed.

Lemma shows_query_empty_term (db : Database) :
  shows_search_query d "" db = shows_query db.
Proof.
  unfold shows_search_query, shows_query. f_equal.
  apply filter_every. intros r _. rewrite ilike_empty_term. reflexivity.
Qed.




Lemma shows_query_no_match (q : string) (db : Database) :
  (forall v, In v (venues db) ->
     ilike d (Venue.name v) (search_pattern q) = false) ->
  (forall a, In a (artists db) ->
     ilike d (Artist.name a) (search_pattern q) = false) ->
  shows_search_query d q db = [].
Proof.
  intros Hv Ha. unfold shows_search_query. rewrite filter_none; [reflexivity|].
  intros [[s a] v] Hin. apply in_show_rows in Hin.
  cbn [fst snd]. rewrite Hv, Ha by tauto. reflexivity.
Qed.
End SearchTerms.

(** C9: under unique primary keys, each of the three search routes answers
    with a count equal to the number of rows it hands to the template; when
    no name matches the pattern the count is zero and the rows are empty; on
    the empty term the rows are the whole table and the count its size (for
    shows, given referential integrity). *)
Theorem search_count_is_row_count (d : Dialect) (q : string) (w : World) :
  keys_unique (working w) ->
  let db := working w in
  (fst (search_venues d q w)
   = Ok (render_template "pages/search_venues.html"
           (VenueSearchPage (venues_response d q db) q))
   /\ results_count (venues_response d q db)
      = List.length (results_data (venues_response d q db))
   /\ ((forall v, In v (venues db) ->
          ilike d (Venue.name v) (search_pattern q) = false) ->
       results_count (venues_response d q db) = 0
       /\ results_data (venues_response d q db) = [])
   /\ (q = "" ->
       results_data (venues_response d q db) = venues db
       /\ results_count (venues_response d q db) = List.length (venues db)))
  /\ (fst (search_artists d q w)
      = Ok (render_template "pages/search_artists.html"
              (ArtistSearchPage (artists_response d q db) q))
      /\ results_count (artists_response d q db)
         = List.length (results_data (artists_response d q db))
      /\ ((forall a, In a (artists db) ->
             ilike d (Artist.name a) (search_pattern q) = false) ->
          results_count (artists_response d q db) = 0
          /\ results_data (artists_response d q db) = [])
      /\ (q = "" ->
          results_data (artists_response d q db) = artists db
          /\ results_count (artists_response d q db)
             = List.length (artists db)))
  /\ (fst (search_shows d q w)
      = Ok (render_template "pages/search_shows.html"
              (ShowSearchPage (shows_response d q db) q))
      /\ results_count (shows_response d q db)
         = List.length (results_data (shows_response d q db))
      /\ ((forall v, In v (venues db) ->
             ilike d (Venue.name v) (search_pattern q) = false) ->
          (forall a, In a (artists db) ->
             ilike d (Artist.name a) (search_pattern q) = false) ->
          results_count (shows_response d q db) = 0
          /\ results_data (shows_response d q db) = [])
      /\ (q = "" -> references_exist db ->
          results_data (shows_response d q db) = shows db
          /\ results_count (shows_response d q db)
             = List.length (shows db))).
Proof.
  intros Hk db. repeat split; try reflexivity.
  - now rewrite venues_response_data.
  - cbn. unfold venues_query. now rewrite filter_none.
  - rewrite venues_response_data by assumption.
    unfold venues_query. now rewrite filter_none.
  - subst q. rewrite venues_response_data by assumption.
    apply venues_query_empty_term.
  - subst q. cbn. now rewrite venues_query_empty_term.
  - now rewrite artists_response_data.
  - cbn. unfold artists_query. now rewrite filter_none.
  - rewrite artists_response_data by assumption.
    unfold artists_query. now rewrite filter_none.
  - subst q. rewrite artists_response_data by assumption.
    apply artists_query_empty_term.
  - subst q. cbn. now rewrite artists_query_empty_term.
  - now rewrite shows_response_data.
  - cbn. now rewrite shows_query_no_match.
  - rewrite shows_response_data by assumption.
    now apply shows_query_no_match.
  - subst q. rewrite shows_response_data by assumption.
    rewrite shows_query_empty_term. now apply shows_query_total.
  - subst q. cbn. rewrite shows_query_empty_term.
    now rewrite shows_query_total.
Qed.

Lemma search_count_is_row_count_witness :
  keys_unique (working (fresh_world sample_db))
  /\ results_count (shows_response BackslashEscape "" sample_db) = 2
  /\ results_data (venues_response BackslashEscape "" sample_db)
     = [fillmore; jazz_club].
Proof.
  pose proof (search_count_is_row_count BackslashEscape ""
                (fresh_world sample_db) sample_keys_unique) as H.
  cbv zeta in H. destruct H as ((_ & _ & _ & Hv) & _ & (_ & _ & _ & Hs)).
  split; [exact sample_keys_unique|]. split.
  - exact (proj2 (Hs eq_refl sample_references_exist)).
  - exact (proj1 (Hv eq_refl)).
Defined.

Section PlainTerms.
Variable d : Dialect.
Variable q : string.
Variable db : Database.
Hypothesis Hplain : plain_term d q = true.
Hypothesis Hkeys : keys_unique db.

Lemma venues_response_plain (v : Venue.t) :
  In v (results_data (venues_response d q db))
  <-> In v (venues db) /\ contains_ci q (Venue.name v) = true.
Proof.
  rewrite venues_response_data by assumption. unfold venues_query.
  rewrite filter_In, ilike_plain by assumption. tauto.
Qed.

Lemma artists_response_plain (a : Artist.t) :
  In a (results_data (artists_response d q db))
  <-> In a (artists db) /\ contains_ci q (Artist.name a) = true.
Proof.
  rewrite artists_response_data by assumption. unfold artists_query.
  rewrite filter_In, ilike_plain by assumption. tauto.
Qed.

Lemma shows_response_plain (s : Show.t) :
  In s (results_data (shows_response d q db))
  <-> In s (shows db)
      /\ exists a v,
           In a (artists db) /\ Artist.id a = Show.artist_id s
           /\ In v (venues db) /\ Venue.id v = Show.venue_id s
           /\ (contains_ci q (Venue.name v) = true
               \/ contains_ci q (Artist.name a) = true).
Proof.
  rewrite shows_response_data, in_shows_search by assumption.
  split; intros (Hs & a & v & H); (split; [assumption|]); exists a, v.
  - rewrite !ilike_plain in H by assumption. exact H.
  - rewrite !ilike_plain by assumption. exact H.
Qed.
End PlainTerms.

(** C2, amended: for a search term free of [%], [_] and the engine's escape
    character, and under unique primary keys, the venue search returns
    exactly the venues whose name contains the term case-insensitively, the
    artist search exactly such artists, and the show search exactly the
    shows joined to a venue and an artist of which one has such a name; on
    the empty term the three searches return every venue, every artist and
    every joined show. *)
Theorem search_is_substring_match_on_plain_terms
    (d : Dialect) (q : string) (w : World) :
  plain_term d q = true ->
  keys_unique (working w) ->
  let db := working w in
  (fst (search_venues d q w)
   = Ok (render_template "pages/search_venues.html"
           (VenueSearchPage (venues_response d q db) q))
   /\ forall v,
        In v (results_data (venues_response d q db))
        <-> In v (venues db) /\ contains_ci q (Venue.name v) = true)
  /\ (fst (search_artists d q w)
      = Ok (render_template "pages/search_artists.html"
              (ArtistSearchPage (artists_response d q db) q))
      /\ forall a,
           In a (results_data (artists_response d q db))
           <-> In a (artists db) /\ contains_ci q (Artist.name a) = true)
  /\ (fst (search_shows d q w)
      = Ok (render_template "pages/search_shows.html"
              (ShowSearchPage (shows_response d q db) q))
      /\ forall s,
           In s (results_data (shows_response d q db))
           <-> In s (shows db)
               /\ exists a v,
                    In a (artists db) /\ Artist.id a = Show.artist_id s
                    /\ In v (venues db) /\ Venue.id v = Show.venue_id s
                    /\ (contains_ci q (Venue.name v) = true
                        \/ contains_ci q (Artist.name a) = true))
  /\ (q = "" ->
      results_data (venues_response d q db) = venues db
      /\ results_data (artists_response d q db) = artists db
      /\ results_data (shows_response d q db) = shows_query db).
Proof.
  intros Hq Hk db.
  split; [split; [reflexivity | now apply venues_response_plain]|].
  split; [split; [reflexivity | now apply artists_response_plain]|].
  split; [split; [reflexivity | now apply shows_response_plain]|].
  intros ->.
  rewrite venues_response_data, artists_response_data, shows_response_data
    by assumption.
  split; [apply venues_query_empty_term|].
  split; [apply artists_query_empty_term | apply shows_query_empty_term].
Qed.

Lemma search_is_substring_match_on_plain_terms_witness :
  plain_term BackslashEscape "jazz" = true
  /\ keys_unique (working (fresh_world sample_db))
  /\ In jazz_club (results_data (venues_response BackslashEscape "jazz" sample_db)).
Proof.
  pose proof (search_is_substring_match_on_plain_terms BackslashEscape "jazz"
                (fresh_world sample_db) eq_refl sample_keys_unique) as H.
  cbv zeta in H. destruct H as ((_ & Hv) & _).
  split; [reflexivity|]. split; [exact sample_keys_unique|].
  apply Hv. split; [right; left; reflexivity | reflexivity].
Defined.

(** C2 as stated fails: the term [_] returns The Fillmore (and the show
    played there) although no name involved contains an underscore, and the
    term [%] returns Guns N Petals although that name contains no percent
    sign. *)
Lemma search_is_not_substring_match :
  In fillmore (results_data (venues_response BackslashEscape "_" sample_db))
  /\ contains_ci "_" (Venue.name fillmore) = false
  /\ In fillmore (results_data (venues_response StandardLike "_" sample_db))
  /\ In petals (results_data (artists_response BackslashEscape "%" sample_db))
  /\ contains_ci "%" (Artist.name petals) = false
  /\ In quevedo_at_fillmore
       (results_data (shows_response BackslashEscape "_" sample_db))
  /\ contains_ci "_" (Venue.name fillmore) = false
  /\ contains_ci "_" (Artist.name quevedo) = false.
Proof. vm_compute. intuition. Qed.


(* ------------------------------------------------------------------------- *)
(** ** Detail routes *)
(* ------------------------------------------------------------------------- *)

Lemma join_pair_keys {A B : Type} (ka : A -> nat) (kb : B -> nat)
    (on : A -> B -> bool) (l : list A) (r : list B) :
  NoDup (map ka l) -> NoDup (map kb r) ->
  NoDup (map (fun x => [ka (fst x); kb (snd x)]) (join on l r)).
Proof.
  intros Hl Hr. induction l as [|a l IH]; [constructor|].
  cbn [map] in Hl. inversion Hl as [|? ? Hnotin Hl']; subst.
  rewrite join_cons, map_app. apply NoDup_app.
  - rewrite map_map. cbn [fst snd].
    rewrite <- (map_map kb (fun k => [ka a; k])).
    apply NoDup_map_NoDup_ForallPairs.
    + intros x y _ _ E. now inversion E.
    + now apply filter_keeps_keys.
  - now apply IH.
  - intros k Hk1 Hk2.
    apply in_map_iff in Hk1 as ([a1 b1] & <- & Hin1).
    apply in_map_iff in Hin1 as (b & E & _). inversion E; subst.
    apply in_map_iff in Hk2 as ([a2 b2] & E2 & Hin2).
    apply in_join in Hin2 as (Ha2 & _). cbn [fst snd] in E2.
    inversion E2 as [[Eka Ekb]]. apply Hnotin. rewrite <- Eka.
    now apply in_map.
Qed.

Section VenueDetail.
Variable db : Database.
Hypothesis Hkeys : keys_unique db.

Lemma artist_show_rows_keys :
  NoDup (map (fun r : Artist.t * Show.t * Venue.t => pair_identity (fst r))
           (artist_show_venue db)).
Proof.
  destruct Hkeys as (Hv & Ha & Hs). unfold artist_show_venue.
  apply (join_keys (list nat) (fun x : Artist.t * Show.t => pair_identity x)).
  - now apply (join_pair_keys Artist.id Show.id).
  - intros x _. now apply filter_key_short.
Qed.

Lemma venue_rows_all (p : Artist.t * Show.t * Venue.t -> bool) :
  all pair_identity (map fst (filter p (artist_show_venue db)))
  = map fst (filter p (artist_show_venue db)).
Proof.
  apply all_distinct. rewrite map_map.
  apply filter_keeps_keys, artist_show_rows_keys.
Qed.

Lemma in_artist_show_rows (a : Artist.t) (s : Show.t) (v : Venue.t) :
  In (a, s, v) (artist_show_venue db)
  <-> In a (artists db) /\ In s (shows db)
      /\ Show.artist_id s = Artist.id a
      /\ In v (venues db) /\ Venue.id v = Show.venue_id s.
Proof.
  unfold artist_show_venue. rewrite !in_join. cbn [fst snd].
  rewrite !Nat.eqb_eq. tauto.
Qed.

Hypothesis Hrefs : references_exist db.

(** The venue detail view does partition the venue's shows when both
    queries see the same clock value. *)
Lemma show_venue_partitions (venue_id : nat) (now : Z) (s : Show.t) :
  In s (shows db) -> Show.venue_id s = venue_id ->
  let past := all pair_identity (venue_past_shows venue_id now db) in
  let upcoming := all pair_identity (venue_upcoming_shows venue_id now db) in
  ((Show.start_time s < now)%Z ->
     In s (map snd past) /\ ~ In s (map snd upcoming))
  /\ ((Show.start_time s >= now)%Z ->
        In s (map snd upcoming) /\ ~ In s (map snd past)).
Proof.
  intros Hs Hvid past upcoming. subst past upcoming.
  unfold venue_past_shows, venue_upcoming_shows. rewrite !venue_rows_all.
  destruct (Hrefs s Hs) as ((v & Hv & Ev) & a & Ha & Ea).
  assert (Hrow : In (a, s, v) (artist_show_venue db))
    by (apply in_artist_show_rows; auto).
  split; intros Ht; split.
  - apply in_map_iff. exists (a, s). split; [reflexivity|].
    apply in_map_iff. exists (a, s, v). split; [reflexivity|].
    apply filter_In. split; [assumption|]. cbn [fst snd].
    rewrite Hvid, Ea, !Nat.eqb_refl. now apply Z.ltb_lt.
  - intros Hin. apply in_map_iff in Hin as ([a' s'] & E & Hin).
    cbn in E. subst s'.
    apply in_map_iff in Hin as ([[a'' s''] v'] & E & Hin).
    cbn in E. inversion E; subst. apply filter_In in Hin as (_ & Hp).
    cbn [fst snd] in Hp. apply andb_prop in Hp as (_ & Hp).
    apply Z.geb_le in Hp. lia.
  - apply in_map_iff. exists (a, s). split; [reflexivity|].
    apply in_map_iff. exists (a, s, v). split; [reflexivity|].
    apply filter_In. split; [assumption|]. cbn [fst snd].
    rewrite Hvid, Ea, !Nat.eqb_refl. apply Z.geb_le. lia.
  - intros Hin. apply in_map_iff in Hin as ([a' s'] & E & Hin).
    cbn in E. subst s'.
    apply in_map_iff in Hin as ([[a'' s''] v'] & E & Hin).
    cbn in E. inversion E; subst. apply filter_In in Hin as (_ & Hp).
    cbn [fst snd] in Hp. apply andb_prop in Hp as (_ & Hp).
    apply Z.ltb_lt in Hp. lia.
Qed.
End VenueDetail.

(** Every row of the artist detail view is selected by comparing the show's
    venue key with the artist's key. *)
Lemma artist_listing_selects_by_venue_key
    (artist_id : nat) (now : Z) (db : Database) (v : Venue.t) (s : Show.t) :
  In (v, s) (artist_past_shows artist_id now db)
  \/ In (v, s) (artist_upcoming_shows artist_id now db) ->
  Show.venue_id s = artist_id.
Proof.
  unfold artist_past_shows, artist_upcoming_shows.
  intros [H | H]; apply in_map_iff in H as ([[v' s'] a] & E & Hin);
    cbn in E; inversion E; subst; apply filter_In in Hin as (_ & Hp);
    cbn [fst snd] in Hp; apply andb_prop in Hp as (Hp & _);
    apply andb_prop in Hp as (Hp & _); now apply Nat.eqb_eq.
Qed.

(** C1: on the sample rows at time 200 the artist detail view of Guns N
    Petals has in neither of its two lists the show that artist played at
    time 100, and lists as upcoming a show of another artist, the one whose
    venue key equals the artist's key. *)
Theorem show_artist_omits_the_artists_show :
  In petals_at_jazz_club (shows sample_db)
  /\ Show.artist_id petals_at_jazz_club = Artist.id petals
  /\ (Show.start_time petals_at_jazz_club < 200)%Z
  /\ Show.artist_id quevedo_at_fillmore <> Artist.id petals
  /\ fst (show_artist (Artist.id petals) 200 200 (fresh_world sample_db))
     = Ok (render_template "pages/show_artist.html"
             (ArtistPage petals
                (mkShows [] 0
                   [Card.mk (Venue.id fillmore) "The Fillmore" ""
                      (Show.start_time quevedo_at_fillmore)] 1))).
Proof.
  split; [left; reflexivity|]. split; [reflexivity|].
  split; [reflexivity|]. split; [discriminate|]. vm_compute. reflexivity.
Qed.

(* ------------------------------------------------------------------------- *)
(** ** Create, edit and delete routes *)
(* ------------------------------------------------------------------------- *)

Lemma validate_on_submit_fails {F} (validate : F -> bool) (req : Request F) :
  validate (formdata req) = false -> validate_on_submit validate req = false.
Proof. unfold validate_on_submit. intros ->. now destruct (method req). Qed.

Lemma validate_on_submit_post {F} (validate : F -> bool) (req : Request F) :
  validate_on_submit validate req = true ->
  method req = POST /\ validate (formdata req) = true.
Proof. unfold validate_on_submit. destruct (method req); [discriminate | auto]. Qed.

Lemma find_row_key {T} `{Model T} (i : nat) (rows : list T) (r : T) :
  find_row i rows = Some r -> In r rows /\ pk r = i.
Proof.
  unfold find_row. intros Hf. apply find_some in Hf as (Hin & E).
  split; [assumption | now apply Nat.eqb_eq].
Qed.

Lemma find_row_deleted {T} `{Model T} (i : nat) (rows : list T) :
  find_row i (delete_row i rows) = None.
Proof.
  unfold find_row, delete_row.
  destruct (find _ _) as [r|] eqn:Hf; [|reflexivity].
  apply find_some in Hf as (Hin & E). apply filter_In in Hin as (_ & Hne).
  rewrite E in Hne. discriminate.
Qed.

Lemma fresh_id_above (ids : list nat) (i : nat) :
  In i ids -> i < fresh_id ids.
Proof.
  unfold fresh_id. induction ids as [|j ids IH]; intros Hin; [destruct Hin|].
  cbn [fold_right]. destruct Hin as [-> | Hin]; [lia|].
  specialize (IH Hin). lia.
Qed.

Lemma find_row_inserted {T} `{Model T} (x : T) (rows : list T) :
  ~ In (pk x) (map pk rows) ->
  find_row (pk x) (insert_row x rows) = Some x.
Proof.
  unfold find_row, insert_row. induction rows as [|r rows IH]; intros Hnotin.
  - cbn. now rewrite Nat.eqb_refl.
  - cbn [app find]. destruct (Nat.eqb_spec (pk r) (pk x)) as [E | _].
    + exfalso. apply Hnotin. left. exact E.
    + apply IH. intros Hin. apply Hnotin. now right.
Qed.

Lemma in_unique_list {R} (identity : R -> list nat) (rows : list R) (x : R) :
  forall seen, In x (unique_list identity seen rows) -> In x rows.
Proof.
  induction rows as [|y rows IH]; intros seen Hin; [destruct Hin|].
  cbn [unique_list] in Hin. destruct (seen_before _ _).
  - right. eapply IH, Hin.
  - destruct Hin as [-> | Hin]; [now left | right; eapply IH, Hin].
Qed.

Lemma in_all {R} (identity : R -> list nat) (rows : list R) (x : R) :
  In x (all identity rows) -> In x rows.
Proof. apply in_unique_list. Qed.

Ltac run :=
  cbv beta delta
    [create_venue edit_venue delete_venue create_artist edit_artist
     delete_artist create_show show_venue show_artist venues_handler
     artists_handler bind get_or_404_text get_or_404 query try_except
     try_finally
     session_add_new session_modify session_add_loaded session_delete
     session_commit session_rollback session_close flash ret
     recovered_from_failed_commit nothing_written];
  cbn [table set_table pk with_pk VenueModel ArtistModel ShowModel].

Section WriteRoutes.
Variable forms : Validators.
Variable w : World.

(** *** Validation fails *)

Lemma create_venue_invalid (req : Request VenueForm.t) (b : bool) :
  validate_venue forms (formdata req) = false ->
  create_venue forms req b w
  = (Ok (render_template "forms/new_venue.html"
           (NewVenueForm (bound_form req (unbound_venue forms)))),
     w).
Proof.
  intros Hv. unfold create_venue.
  now rewrite validate_on_submit_fails.
Qed.

Lemma create_artist_invalid (req : Request ArtistForm.t) (b : bool) :
  validate_artist forms (formdata req) = false ->
  create_artist forms req b w
  = (Ok (render_template "forms/new_artist.html"
           (NewArtistForm (bound_form req (unbound_artist forms)))),
     w).
Proof.
  intros Hv. unfold create_artist.
  now rewrite validate_on_submit_fails.
Qed.

Lemma create_show_invalid (req : Request ShowForm.t) (b : bool) :
  validate_show forms (formdata req) = false ->
  create_show forms req b w
  = (Ok (render_template "forms/new_show.html"
           (NewShowForm (bound_form req (unbound_show forms)))),
     w).
Proof.
  intros Hv. unfold create_show.
  now rewrite validate_on_submit_fails.
Qed.

Lemma edit_venue_invalid (venue_id : nat) (req : Request VenueForm.t)
    (b : bool) (venue : Venue.t) :
  find_row venue_id (venues (working w)) = Some venue ->
  validate_venue forms (formdata req) = false ->
  let r := edit_venue forms venue_id req b w in
  fst r
  = Ok (render_template "forms/edit_venue.html"
          (EditVenueForm (bound_form req (VenueForm.of_obj venue))
             (Venue.name venue)))
  /\ nothing_written w (snd r).
Proof.
  intros Hf Hv. run. rewrite Hf, validate_on_submit_fails by assumption.
  cbn. repeat split.
Qed.

Lemma edit_artist_invalid (artist_id : nat) (req : Request ArtistForm.t)
    (b : bool) (artist : Artist.t) :
  find_row artist_id (artists (working w)) = Some artist ->
  validate_artist forms (formdata req) = false ->
  let r := edit_artist forms artist_id req b w in
  fst r
  = Ok (render_template "forms/edit_artist.html"
          (EditArtistForm (bound_form req (ArtistForm.of_obj artist))
             (Artist.name artist)))
  /\ nothing_written w (snd r).
Proof.
  intros Hf Hv. run. rewrite Hf, validate_on_submit_fails by assumption.
  cbn. repeat split.
Qed.

(** An edit of a row that is not there is answered before the form is
    looked at. *)
Lemma edit_missing_row (i : nat) (b : bool) :
  (forall req, find_row i (venues (working w)) = None ->
     fst (edit_venue forms i req b w) = Abort 404
     /\ nothing_written w (snd (edit_venue forms i req b w)))
  /\ (forall req, find_row i (artists (working w)) = None ->
        fst (edit_artist forms i req b w) = Abort 404
        /\ nothing_written w (snd (edit_artist forms i req b w))).
Proof.
  split; intros req Hf; run; rewrite Hf; cbn; repeat split.
Qed.

(** *** The commit raises *)

Lemma create_venue_commit_fails (req : Request VenueForm.t) :
  validate_on_submit (validate_venue forms) req = true ->
  let r := create_venue forms req true w in
  fst r
  = Ok (render_template "forms/new_venue.html" (NewVenueForm (formdata req)))
  /\ recovered_from_failed_commit w (snd r)
       ("An error occurred. Venue " ++ VenueForm.name (formdata req)
        ++ " could not be listed.")%string.
Proof.
  intros Hv. run. rewrite Hv.
  apply validate_on_submit_post in Hv as (Hm & _).
  unfold bound_form. rewrite Hm. cbn. rewrite <- !app_assoc. repeat split.
Qed.

Lemma create_artist_commit_fails (req : Request ArtistForm.t) :
  validate_on_submit (validate_artist forms) req = true ->
  let r := create_artist forms req true w in
  fst r
  = Ok (render_template "forms/new_artist.html"
          (NewArtistForm (formdata req)))
  /\ recovered_from_failed_commit w (snd r)
       ("An error occurred. Artist " ++ ArtistForm.name (formdata req)
        ++ " could not be listed.")%string.
Proof.
  intros Hv. run. rewrite Hv.
  apply validate_on_submit_post in Hv as (Hm & _).
  unfold bound_form. rewrite Hm. cbn. rewrite <- !app_assoc. repeat split.
Qed.

Lemma create_show_commit_fails (req : Request ShowForm.t) :
  validate_on_submit (validate_show forms) req = true ->
  let r := create_show forms req true w in
  fst r
  = Ok (render_template "forms/new_show.html" (NewShowForm (formdata req)))
  /\ recovered_from_failed_commit w (snd r)
       "An error occurred. Show could not be listed.".
Proof.
  intros Hv. run. rewrite Hv.
  apply validate_on_submit_post in Hv as (Hm & _).
  unfold bound_form. rewrite Hm. cbn. rewrite <- !app_assoc. repeat split.
Qed.

Lemma edit_venue_commit_fails (venue_id : nat) (req : Request VenueForm.t)
    (venue : Venue.t) :
  find_row venue_id (venues (working w)) = Some venue ->
  validate_on_submit (validate_venue forms) req = true ->
  let r := edit_venue forms venue_id req true w in
  fst r
  = Ok (render_template "forms/edit_venue.html"
          (EditVenueForm (formdata req) (Venue.name venue)))
  /\ recovered_from_failed_commit w (snd r)
       ("An error occurred. Venue " ++ Venue.name venue
        ++ " could not be edited.")%string.
Proof.
  intros Hf Hv. run. rewrite Hf, Hv.
  apply validate_on_submit_post in Hv as (Hm & _).
  unfold bound_form. rewrite Hm. cbn. rewrite <- !app_assoc. repeat split.
Qed.

Lemma edit_artist_commit_fails (artist_id : nat) (req : Request ArtistForm.t)
    (artist : Artist.t) :
  find_row artist_id (artists (working w)) = Some artist ->
  validate_on_submit (validate_artist forms) req = true ->
  let r := edit_artist forms artist_id req true w in
  fst r
  = Ok (render_template "forms/edit_artist.html"
          (EditArtistForm (formdata req) (Artist.name artist)))
  /\ recovered_from_failed_commit w (snd r)
       ("An error occurred. Artist " ++ Artist.name artist
        ++ " could not be edited.")%string.
Proof.
  intros Hf Hv. run. rewrite Hf, Hv.
  apply validate_on_submit_post in Hv as (Hm & _).
  unfold bound_form. rewrite Hm. cbn. rewrite <- !app_assoc. repeat split.
Qed.
End WriteRoutes.

Section CommitSucceeds.
Variable forms : Validators.
Variable w : World.

Lemma create_venue_committed (req : Request VenueForm.t) :
  validate_on_submit (validate_venue forms) req = true ->
  let r := create_venue forms req false w in
  let venue :=
    with_pk (fresh_id (map Venue.id (venues (working w))))
      (VenueForm.populate_obj (formdata req) blank_venue) in
  fst r = Ok (redirect (show_venue_url (Venue.id venue)))
  /\ flashes (snd r)
     = flashes w
       ++ [("Venue " ++ VenueForm.name (formdata req)
            ++ " was successfully listed!")%string]
  /\ find_row (Venue.id venue) (venues (stored (snd r))) = Some venue.
Proof.
  intros Hv.
  pose proof (find_row_inserted
                (with_pk (fresh_id (map Venue.id (venues (working w))))
                   (VenueForm.populate_obj (formdata req) blank_venue))
                (venues (working w))) as Hnew.
  run. rewrite Hv.
  apply validate_on_submit_post in Hv as (Hm & _).
  unfold bound_form. rewrite Hm. cbn. repeat split.
  apply Hnew. cbn. intros Hin. apply fresh_id_above in Hin. lia.
Qed.


Lemma edit_venue_committed (venue_id : nat) (req : Request VenueForm.t)
    (venue : Venue.t) :
  find_row venue_id (venues (working w)) = Some venue ->
  validate_on_submit (validate_venue forms) req = true ->
  let r := edit_venue forms venue_id req false w in
  fst r = Ok (redirect (show_venue_url venue_id))
  /\ flashes (snd r)
     = flashes w
       ++ [("Venue " ++ VenueForm.name (formdata req)
            ++ " was successfully updated!")%string]
  /\ stored (snd r)
     = set_table
         (update_row (VenueForm.populate_obj (formdata req) venue)
            (venues (working w)))
         (working w).
Proof.
  intros Hf Hv. run. rewrite Hf, Hv.
  apply validate_on_submit_post in Hv as (Hm & _).
  unfold bound_form. rewrite Hm. cbn. repeat split.
Qed.

(** The success path of [edit_artist] redirects and flashes nothing. *)
Lemma edit_artist_committed (artist_id : nat) (req : Request ArtistForm.t)
    (artist : Artist.t) :
  find_row artist_id (artists (working w)) = Some artist ->
  validate_on_submit (validate_artist forms) req = true ->
  let r := edit_artist forms artist_id req false w in
  fst r = Ok (redirect (show_artist_url artist_id))
  /\ flashes (snd r) = flashes w
  /\ stored (snd r)
     = set_table
         (update_row (ArtistForm.populate_obj (formdata req) artist)
            (artists (working w)))
         (working w).
Proof.
  intros Hf Hv. run. rewrite Hf, Hv.
  apply validate_on_submit_post in Hv as (Hm & _).
  unfold bound_form. rewrite Hm. cbn. repeat split.
Qed.

Lemma create_show_committed (req : Request ShowForm.t) :
  validate_on_submit (validate_show forms) req = true ->
  let r := create_show forms req false w in
  let show :=
    with_pk (fresh_id (map Show.id (shows (working w))))
      (ShowForm.populate_obj (formdata req) blank_show) in
  fst r = Ok (render_template "pages/home.html" NoContext)
  /\ flashes (snd r) = flashes w ++ ["Show was successfully listed!"]
  /\ find_row (Show.id show) (shows (stored (snd r))) = Some show.
Proof.
  intros Hv.
  pose proof (find_row_inserted
                (with_pk (fresh_id (map Show.id (shows (working w))))
                   (ShowForm.populate_obj (formdata req) blank_show))
                (shows (working w))) as Hnew.
  run. rewrite Hv.
  apply validate_on_submit_post in Hv as (Hm & _).
  unfold bound_form. rewrite Hm. cbn. repeat split.
  apply Hnew. cbn. intros Hin. apply fresh_id_above in Hin. lia.
Qed.
End CommitSucceeds.

Section DeleteRoutes.
Variable w : World.
Variable i : nat.
Variable read_key : string -> KeyReading.
Variable ident : string.

(** The engine reads the path segment as the key [i]. *)
Hypothesis Hread : read_key ident = Key i.

Lemma delete_venue_missing (b : bool) :
  find_row i (venues (working w)) = None ->
  fst (delete_venue read_key ident b w) = Abort 404
  /\ nothing_written w (snd (delete_venue read_key ident b w)).
Proof. intros Hf. run. rewrite Hread, Hf. cbn. repeat split. Qed.

Lemma delete_artist_missing (b : bool) :
  find_row i (artists (working w)) = None ->
  fst (delete_artist read_key ident b w) = Abort 404
  /\ nothing_written w (snd (delete_artist read_key ident b w)).
Proof. intros Hf. run. rewrite Hread, Hf. cbn. repeat split. Qed.

Lemma delete_venue_committed (v : Venue.t) :
  find_row i (venues (working w)) = Some v ->
  let r := delete_venue read_key ident false w in
  fst r = Ok (body_status "" 204)
  /\ stored (snd r)
     = set_table (delete_row i (venues (working w))) (working w)
  /\ session_open (snd r) = false
  /\ calls (snd r) = calls w ++ [Delete; Commit; Close]
  /\ flashes (snd r) = flashes w.
Proof.
  intros Hf. destruct (find_row_key _ _ _ Hf) as (_ & Ek). cbn in Ek.
  run. rewrite Hread, Hf. cbn. rewrite Ek, <- !app_assoc. repeat split.
Qed.

Lemma delete_venue_commit_fails (v : Venue.t) :
  find_row i (venues (working w)) = Some v ->
  let r := delete_venue read_key ident true w in
  fst r = Ok (body_status "" 500)
  /\ stored (snd r) = stored w
  /\ working (snd r) = stored w
  /\ session_open (snd r) = false
  /\ calls (snd r) = calls w ++ [Delete; Commit; Rollback; Close]
  /\ flashes (snd r)
     = flashes w
       ++ [("An error occurred. Venue " ++ Venue.name v
            ++ " could not be deleted.")%string].
Proof.
  intros Hf. run. rewrite Hread, Hf. cbn. rewrite <- !app_assoc. repeat split.
Qed.

Lemma delete_artist_committed (a : Artist.t) :
  find_row i (artists (working w)) = Some a ->
  let r := delete_artist read_key ident false w in
  fst r = Ok (body_status "" 204)
  /\ stored (snd r)
     = set_table (delete_row i (artists (working w))) (working w)
  /\ session_open (snd r) = true
  /\ calls (snd r) = calls w ++ [Delete; Commit]
  /\ flashes (snd r) = flashes w.
Proof.
  intros Hf. destruct (find_row_key _ _ _ Hf) as (_ & Ek). cbn in Ek.
  run. rewrite Hread, Hf. cbn. rewrite Ek, <- !app_assoc. repeat split.
Qed.

Lemma delete_artist_commit_fails (a : Artist.t) :
  find_row i (artists (working w)) = Some a ->
  let r := delete_artist read_key ident true w in
  fst r = Ok (body_status "" 500)
  /\ stored (snd r) = stored w
  /\ working (snd r) = stored w
  /\ session_open (snd r) = false
  /\ calls (snd r) = calls w ++ [Delete; Commit; Rollback; Close]
  /\ flashes (snd r)
     = flashes w
       ++ [("An error occurred. Artist " ++ Artist.name a
            ++ " could not be deleted.")%string].
Proof.
  intros Hf. run. rewrite Hread, Hf. cbn. rewrite <- !app_assoc. repeat split.
Qed.
End DeleteRoutes.

(** A path segment the engine does not read as a key: no row has the value
    ([NoKey], answered 404), or the lookup raises before the [try]
    ([BadKey]); either way nothing is written. *)
Lemma delete_without_a_key (read_key : string -> KeyReading) (ident : string)
    (b : bool) (w : World) :
  (read_key ident = NoKey ->
   (fst (delete_venue read_key ident b w) = Abort 404
    /\ nothing_written w (snd (delete_venue read_key ident b w)))
   /\ (fst (delete_artist read_key ident b w) = Abort 404
       /\ nothing_written w (snd (delete_artist read_key ident b w))))
  /\ (read_key ident = BadKey ->
      (fst (delete_venue read_key ident b w) = Raise
       /\ nothing_written w (snd (delete_venue read_key ident b w)))
      /\ (fst (delete_artist read_key ident b w) = Raise
          /\ nothing_written w (snd (delete_artist read_key ident b w)))).
Proof.
  split; intros Hread; run; rewrite Hread; cbn; repeat split.
Qed.

(** What later requests see of a deleted key. *)
Lemma venue_gone (i : nat) (db : Database) :
  find_row i (venues db) = None ->
  (forall t1 t2, fst (show_venue i t1 t2 (fresh_world db)) = Abort 404)
  /\ fst (venues_handler (fresh_world db))
     = Ok (render_template "pages/venues.html" (AreasPage (areas_of db)))
  /\ forall area v,
       In area (areas_of db) -> In v (area_venues area) -> Venue.id v <> i.
Proof.
  intros Hf. split; [|split].
  - intros t1 t2. run. cbn. rewrite Hf. reflexivity.
  - reflexivity.
  - intros area v Harea Hv E. unfold areas_of in Harea.
    apply in_map_iff in Harea as ([state city] & <- & _). cbn in Hv.
    apply in_all, filter_In in Hv as (Hv & _).
    unfold find_row in Hf. apply (find_none _ _ Hf) in Hv.
    cbn in Hv. apply Nat.eqb_neq in Hv. contradiction.
Qed.

Lemma artist_gone (i : nat) (db : Database) :
  find_row i (artists db) = None ->
  (forall t1 t2, fst (show_artist i t1 t2 (fresh_world db)) = Abort 404)
  /\ exists data,
       fst (artists_handler (fresh_world db))
       = Ok (render_template "pages/artists.html" (ArtistsPage data))
       /\ forall name, ~ In (i, name) data.
Proof.
  intros Hf. split.
  - intros t1 t2. run. cbn. rewrite Hf. reflexivity.
  - eexists. split; [reflexivity|]. cbn. intros name Hin.
    apply in_map_iff in Hin as (a & E & Ha). inversion E; subst.
    unfold find_row in Hf. apply (find_none _ _ Hf) in Ha.
    cbn in Ha. now rewrite Nat.eqb_refl in Ha.
Qed.

(** C3: a valid edit of artist 1 whose commit succeeds is answered with a
    redirect to the artist's detail page and no flashed message at all; the
    same submission for venue 1 flashes its success message. *)
Theorem edit_artist_success_flashes_nothing :
  let req := mkRequest POST petals_form in
  let r :=
    edit_artist sample_forms (Artist.id petals) req false
      (fresh_world sample_db) in
  validate_on_submit (validate_artist sample_forms) req = true
  /\ fst r = Ok (redirect (show_artist_url (Artist.id petals)))
  /\ flashes (snd r) = []
  /\ flashes
       (snd (edit_venue sample_forms (Venue.id fillmore)
               (mkRequest POST fillmore_form) false (fresh_world sample_db)))
     = ["Venue The Fillmore was successfully updated!"].
Proof. vm_compute. repeat split. Qed.

(** C4 as stated fails: the answer to a valid show submission whose commit
    succeeds is not a redirect, to any location. *)
Lemma create_show_does_not_redirect :
  validate_on_submit (validate_show sample_forms)
    (mkRequest POST sample_show_form) = true
  /\ ~ exists location,
         fst (create_show sample_forms (mkRequest POST sample_show_form) false
                (fresh_world sample_db))
         = Ok (redirect location).
Proof.
  split; [reflexivity|]. intros (location & H). vm_compute in H. discriminate.
Qed.

(** C4, amended: a valid show submission whose commit succeeds is answered
    by rendering the home page template directly (no redirect), the message
    "Show was successfully listed!" is flashed, and the new row is stored. *)
Theorem create_show_success_renders_home
    (forms : Validators) (req : Request ShowForm.t) (w : World) :
  validate_on_submit (validate_show forms) req = true ->
  let r := create_show forms req false w in
  let show :=
    with_pk (fresh_id (map Show.id (shows (working w))))
      (ShowForm.populate_obj (formdata req) blank_show) in
  fst r = Ok (render_template "pages/home.html" NoContext)
  /\ flashes (snd r) = flashes w ++ ["Show was successfully listed!"]
  /\ find_row (Show.id show) (shows (stored (snd r))) = Some show.
Proof. apply create_show_committed. Qed.

Lemma create_show_success_renders_home_witness :
  validate_on_submit (validate_show sample_forms)
    (mkRequest POST sample_show_form) = true
  /\ fst (create_show sample_forms (mkRequest POST sample_show_form) false
            (fresh_world sample_db))
     = Ok (render_template "pages/home.html" NoContext).
Proof.
  split; [reflexivity|].
  exact (proj1 (create_show_success_renders_home sample_forms
                  (mkRequest POST sample_show_form) (fresh_world sample_db)
                  eq_refl)).
Defined.

(** C5: when validation of the submitted fields fails, the three create
    routes leave the world exactly as it was and render their form again,
    the form object of the request, which on a submission holds the
    submitted fields; the two edit routes, for a row that exists, render the
    edit form again and write nothing. *)
Theorem invalid_submission_writes_nothing (forms : Validators) (w : World) :
  (forall req b,
     validate_venue forms (formdata req) = false ->
     create_venue forms req b w
     = (Ok (render_template "forms/new_venue.html"
              (NewVenueForm (bound_form req (unbound_venue forms)))),
        w))
  /\ (forall req b,
        validate_artist forms (formdata req) = false ->
        create_artist forms req b w
        = (Ok (render_template "forms/new_artist.html"
                 (NewArtistForm (bound_form req (unbound_artist forms)))),
           w))
  /\ (forall req b,
        validate_show forms (formdata req) = false ->
        create_show forms req b w
        = (Ok (render_template "forms/new_show.html"
                 (NewShowForm (bound_form req (unbound_show forms)))),
           w))
  /\ (forall venue_id req b venue,
        find_row venue_id (venues (working w)) = Some venue ->
        validate_venue forms (formdata req) = false ->
        fst (edit_venue forms venue_id req b w)
        = Ok (render_template "forms/edit_venue.html"
                (EditVenueForm (bound_form req (VenueForm.of_obj venue))
                   (Venue.name venue)))
        /\ nothing_written w (snd (edit_venue forms venue_id req b w)))
  /\ (forall artist_id req b artist,
        find_row artist_id (artists (working w)) = Some artist ->
        validate_artist forms (formdata req) = false ->
        fst (edit_artist forms artist_id req b w)
        = Ok (render_template "forms/edit_artist.html"
                (EditArtistForm (bound_form req (ArtistForm.of_obj artist))
                   (Artist.name artist)))
        /\ nothing_written w (snd (edit_artist forms artist_id req b w)))
  /\ (forall (F : Type) (req : Request F) (otherwise : F),
        method req = POST -> bound_form req otherwise = formdata req).
Proof.
  split; [intros; now apply create_venue_invalid|].
  split; [intros; now apply create_artist_invalid|].
  split; [intros; now apply create_show_invalid|].
  split; [intros; now apply edit_venue_invalid|].
  split; [intros; now apply edit_artist_invalid|].
  intros F req otherwise Hm. unfold bound_form. now rewrite Hm.
Qed.

Lemma invalid_submission_writes_nothing_witness :
  validate_venue sample_forms
    (formdata (mkRequest POST (VenueForm.of_obj blank_venue))) = false
  /\ find_row 1 (venues (working (fresh_world sample_db))) = Some fillmore
  /\ stored
       (snd (edit_venue sample_forms 1
               (mkRequest POST (VenueForm.of_obj blank_venue)) false
               (fresh_world sample_db)))
     = sample_db.
Proof.
  split; [reflexivity|]. split; [reflexivity|].
  pose proof (invalid_submission_writes_nothing sample_forms
                (fresh_world sample_db)) as (_ & _ & _ & Hedit & _).
  exact (proj1 (proj2 (Hedit 1 (mkRequest POST (VenueForm.of_obj blank_venue))
                         false fillmore eq_refl eq_refl))).
Defined.

(** C6: when validation passes and the commit raises, each create and edit
    route leaves the committed rows unchanged with nothing pending, has
    called rollback and close after add and commit, leaves the session
    closed, flashes one failure message naming the entity, and renders the
    create form (create) or the edit form (edit) again. *)
Theorem failed_commit_is_rolled_back (forms : Validators) (w : World) :
  (forall req,
     validate_on_submit (validate_venue forms) req = true ->
     fst (create_venue forms req true w)
     = Ok (render_template "forms/new_venue.html"
             (NewVenueForm (formdata req)))
     /\ recovered_from_failed_commit w (snd (create_venue forms req true w))
          ("An error occurred. Venue " ++ VenueForm.name (formdata req)
           ++ " could not be listed.")%string)
  /\ (forall req,
        validate_on_submit (validate_artist forms) req = true ->
        fst (create_artist forms req true w)
        = Ok (render_template "forms/new_artist.html"
                (NewArtistForm (formdata req)))
        /\ recovered_from_failed_commit w
             (snd (create_artist forms req true w))
             ("An error occurred. Artist " ++ ArtistForm.name (formdata req)
              ++ " could not be listed.")%string)
  /\ (forall req,
        validate_on_submit (validate_show forms) req = true ->
        fst (create_show forms req true w)
        = Ok (render_template "forms/new_show.html"
                (NewShowForm (formdata req)))
        /\ recovered_from_failed_commit w (snd (create_show forms req true w))
             "An error occurred. Show could not be listed.")
  /\ (forall venue_id req venue,
        find_row venue_id (venues (working w)) = Some venue ->
        validate_on_submit (validate_venue forms) req = true ->
        fst (edit_venue forms venue_id req true w)
        = Ok (render_template "forms/edit_venue.html"
                (EditVenueForm (formdata req) (Venue.name venue)))
        /\ recovered_from_failed_commit w
             (snd (edit_venue forms venue_id req true w))
             ("An error occurred. Venue " ++ Venue.name venue
              ++ " could not be edited.")%string)
  /\ (forall artist_id req artist,
        find_row artist_id (artists (working w)) = Some artist ->
        validate_on_submit (validate_artist forms) req = true ->
        fst (edit_artist forms artist_id req true w)
        = Ok (render_template "forms/edit_artist.html"
                (EditArtistForm (formdata req) (Artist.name artist)))
        /\ recovered_from_failed_commit w
             (snd (edit_artist forms artist_id req true w))
             ("An error occurred. Artist " ++ Artist.name artist
              ++ " could not be edited.")%string).
Proof.
  split; [intros; now apply create_venue_commit_fails|].
  split; [intros; now apply create_artist_commit_fails|].
  split; [intros; now apply create_show_commit_fails|].
  split; intros.
  - now apply edit_venue_commit_fails.
  - now apply edit_artist_commit_fails.
Qed.

Lemma failed_commit_is_rolled_back_witness :
  validate_on_submit (validate_venue sample_forms)
    (mkRequest POST fillmore_form) = true
  /\ find_row 1 (venues (working (fresh_world sample_db))) = Some fillmore
  /\ recovered_from_failed_commit (fresh_world sample_db)
       (snd (edit_venue sample_forms 1 (mkRequest POST fillmore_form) true
               (fresh_world sample_db)))
       "An error occurred. Venue The Fillmore could not be edited.".
Proof.
  split; [reflexivity|]. split; [reflexivity|].
  pose proof (failed_commit_is_rolled_back sample_forms
                (fresh_world sample_db)) as (_ & _ & _ & Hedit & _).
  exact (proj2 (Hedit 1 (mkRequest POST fillmore_form) fillmore eq_refl
                  eq_refl)).
Defined.

(** C7: the delete routes take their id as the text of a path segment.
    With an engine that rejects text that is no integer, a delete request
    for the id [abc], which no row has, is not answered not-found: the
    lookup raises outside the [try], for venues and artists alike, whatever
    the commit would do; nothing is written.  A numeric id that no row has
    is answered 404. *)
Theorem delete_with_unreadable_id_raises (b : bool) :
  digits_key "abc" = BadKey
  /\ (fst (delete_venue digits_key "abc" b (fresh_world sample_db)) = Raise
      /\ nothing_written (fresh_world sample_db)
           (snd (delete_venue digits_key "abc" b (fresh_world sample_db))))
  /\ (fst (delete_artist digits_key "abc" b (fresh_world sample_db)) = Raise
      /\ nothing_written (fresh_world sample_db)
           (snd (delete_artist digits_key "abc" b (fresh_world sample_db))))
  /\ digits_key "7" = Key 7
  /\ fst (delete_venue digits_key "7" b (fresh_world sample_db)) = Abort 404
  /\ fst (delete_artist digits_key "7" b (fresh_world sample_db)) = Abort 404.
Proof.
  destruct b; vm_compute; repeat split.
Qed.

(** X23: for a delete request whose path segment the engine reads as an
    integer key: with no row under the key the request aborts with 404 and
    writes nothing; with a row and a successful commit the answer is an
    empty body with status 204, the row is removed, later detail requests
    for the key abort with 404 and later listings do not contain it; with a
    failing commit the answer is status 500 after a rollback, the committed
    rows unchanged and a failure message flashed.  Venues and artists
    alike. *)
Theorem delete_outcomes_for_a_read_key
    (read_key : string -> KeyReading) (ident : string) (i : nat) (w : World) :
  read_key ident = Key i ->
  (* venues *)
  (forall b,
     find_row i (venues (working w)) = None ->
     fst (delete_venue read_key ident b w) = Abort 404
     /\ nothing_written w (snd (delete_venue read_key ident b w)))
  /\ (forall v,
        find_row i (venues (working w)) = Some v ->
        let r := delete_venue read_key ident false w in
        fst r = Ok (body_status "" 204)
        /\ stored (snd r)
           = set_table (delete_row i (venues (working w))) (working w)
        /\ find_row i (venues (stored (snd r))) = None
        /\ (forall t1 t2,
              fst (show_venue i t1 t2 (fresh_world (stored (snd r))))
              = Abort 404)
        /\ fst (venues_handler (fresh_world (stored (snd r))))
           = Ok (render_template "pages/venues.html"
                   (AreasPage (areas_of (stored (snd r)))))
        /\ (forall area v',
              In area (areas_of (stored (snd r))) ->
              In v' (area_venues area) -> Venue.id v' <> i))
  /\ (forall v,
        find_row i (venues (working w)) = Some v ->
        let r := delete_venue read_key ident true w in
        fst r = Ok (body_status "" 500)
        /\ stored (snd r) = stored w
        /\ working (snd r) = stored w
        /\ In Rollback (calls (snd r))
        /\ flashes (snd r)
           = flashes w
             ++ [("An error occurred. Venue " ++ Venue.name v
                  ++ " could not be deleted.")%string])
  (* artists *)
  /\ (forall b,
        find_row i (artists (working w)) = None ->
        fst (delete_artist read_key ident b w) = Abort 404
        /\ nothing_written w (snd (delete_artist read_key ident b w)))
  /\ (forall a,
        find_row i (artists (working w)) = Some a ->
        let r := delete_artist read_key ident false w in
        fst r = Ok (body_status "" 204)
        /\ stored (snd r)
           = set_table (delete_row i (artists (working w))) (working w)
        /\ find_row i (artists (stored (snd r))) = None
        /\ (forall t1 t2,
              fst (show_artist i t1 t2 (fresh_world (stored (snd r))))
              = Abort 404)
        /\ exists data,
             fst (artists_handler (fresh_world (stored (snd r))))
             = Ok (render_template "pages/artists.html" (ArtistsPage data))
             /\ forall name, ~ In (i, name) data)
  /\ (forall a,
        find_row i (artists (working w)) = Some a ->
        let r := delete_artist read_key ident true w in
        fst r = Ok (body_status "" 500)
        /\ stored (snd r) = stored w
        /\ working (snd r) = stored w
        /\ In Rollback (calls (snd r))
        /\ flashes (snd r)
           = flashes w
             ++ [("An error occurred. Artist " ++ Artist.name a
                  ++ " could not be deleted.")%string]).
Proof.
  intros Hread.
  split; [intros; now apply (delete_venue_missing w i)|].
  split.
  { intros v Hf r.
    destruct (delete_venue_committed w i read_key ident Hread v Hf)
      as (Hr & Hs & _).
    fold r in Hr, Hs.
    assert (Hgone : find_row i (venues (stored (snd r))) = None)
      by (rewrite Hs; apply (find_row_deleted (T := Venue.t))).
    destruct (venue_gone i _ Hgone) as (Hd & Hl & Ha). auto 10. }
  split.
  { intros v Hf r.
    destruct (delete_venue_commit_fails w i read_key ident Hread v Hf)
      as (Hr & Hs & Hw & _ & Hc & Hfl).
    fold r in Hr, Hs, Hw, Hc, Hfl. repeat split; try assumption.
    rewrite Hc. apply in_or_app. right. cbn. auto. }
  split; [intros; now apply (delete_artist_missing w i)|].
  split.
  { intros a Hf r.
    destruct (delete_artist_committed w i read_key ident Hread a Hf)
      as (Hr & Hs & _).
    fold r in Hr, Hs.
    assert (Hgone : find_row i (artists (stored (snd r))) = None)
      by (rewrite Hs; apply (find_row_deleted (T := Artist.t))).
    destruct (artist_gone i _ Hgone) as (Hd & Hl). auto 10. }
  intros a Hf r.
  destruct (delete_artist_commit_fails w i read_key ident Hread a Hf)
    as (Hr & Hs & Hw & _ & Hc & Hfl).
  fold r in Hr, Hs, Hw, Hc, Hfl. repeat split; try assumption.
  rewrite Hc. apply in_or_app. right. cbn. auto.
Qed.

Lemma delete_outcomes_for_a_read_key_witness :
  digits_key "1" = Key 1
  /\ find_row 1 (venues (working (fresh_world sample_db))) = Some fillmore
  /\ fst (delete_venue digits_key "1" false (fresh_world sample_db))
     = Ok (body_status "" 204)
  /\ digits_key "7" = Key 7
  /\ find_row 7 (artists (working (fresh_world sample_db))) = None
  /\ fst (delete_artist digits_key "7" false (fresh_world sample_db))
     = Abort 404.
Proof.
  split; [reflexivity|]. split; [reflexivity|].
  split;
    [exact (proj1 (proj1 (proj2 (delete_outcomes_for_a_read_key digits_key
                                   "1" 1 (fresh_world sample_db) eq_refl))
                     fillmore eq_refl))|].
  split; [reflexivity|]. split; [reflexivity|].
  pose proof (delete_outcomes_for_a_read_key digits_key "7" 7
                (fresh_world sample_db) eq_refl)
    as (_ & _ & _ & Hmissing & _).
  exact (proj1 (Hmissing false eq_refl)).
Defined.

(** C8: for an existing row, under the key the engine reads the path
    segment as, venue deletion ends with the session closed
    ([close] is its last session call) whether the commit succeeds or
    raises; artist deletion ends with the session closed when the commit
    raises, and with the session open and no [close] call when it
    succeeds. *)
Theorem delete_closes_session_unevenly
    (read_key : string -> KeyReading) (ident : string) (i : nat) (w : World) :
  read_key ident = Key i ->
  (forall v,
     find_row i (venues (working w)) = Some v ->
     (session_open (snd (delete_venue read_key ident false w)) = false
      /\ calls (snd (delete_venue read_key ident false w))
         = calls w ++ [Delete; Commit; Close])
     /\ (session_open (snd (delete_venue read_key ident true w)) = false
         /\ calls (snd (delete_venue read_key ident true w))
            = calls w ++ [Delete; Commit; Rollback; Close]))
  /\ (forall a,
        find_row i (artists (working w)) = Some a ->
        (session_open (snd (delete_artist read_key ident true w)) = false
         /\ calls (snd (delete_artist read_key ident true w))
            = calls w ++ [Delete; Commit; Rollback; Close])
        /\ (session_open (snd (delete_artist read_key ident false w)) = true
            /\ calls (snd (delete_artist read_key ident false w))
               = calls w ++ [Delete; Commit])).
Proof.
  intros Hread. split.
  - intros v Hf.
    destruct (delete_venue_committed w i read_key ident Hread v Hf)
      as (_ & _ & Ho & Hc & _).
    destruct (delete_venue_commit_fails w i read_key ident Hread v Hf)
      as (_ & _ & _ & Ho' & Hc' & _).
    auto.
  - intros a Hf.
    destruct (delete_artist_committed w i read_key ident Hread a Hf)
      as (_ & _ & Ho & Hc & _).
    destruct (delete_artist_commit_fails w i read_key ident Hread a Hf)
      as (_ & _ & _ & Ho' & Hc' & _).
    auto.
Qed.

Lemma delete_closes_session_unevenly_witness :
  digits_key "1" = Key 1
  /\ find_row 1 (artists (working (fresh_world sample_db))) = Some petals
  /\ session_open
       (snd (delete_artist digits_key "1" false (fresh_world sample_db)))
     = true
  /\ find_row 1 (venues (working (fresh_world sample_db))) = Some fillmore
  /\ session_open
       (snd (delete_venue digits_key "1" false (fresh_world sample_db)))
     = false.
Proof.
  pose proof (delete_closes_session_unevenly digits_key "1" 1
                (fresh_world sample_db) eq_refl)
    as (Hvenue & Hartist).
  split; [reflexivity|].
  split; [reflexivity|].
  split; [exact (proj1 (proj2 (Hartist petals eq_refl)))|].
  split; [reflexivity|].
  exact (proj1 (proj1 (Hvenue fillmore eq_refl))).
Defined.

(* ------------------------------------------------------------------------- *)
(** ** The venue listing *)
(* ------------------------------------------------------------------------- *)

Lemma in_area_spec (key : string * string) (v : Venue.t) :
  in_area key v = true <-> (Venue.state v, Venue.city v) = key.
Proof.
  destruct key as [state city]. unfold in_area. cbn [fst snd].
  rewrite andb_true_iff, !String.eqb_eq. split.
  - intros [-> ->]. reflexivity.
  - intros E. inversion E. auto.
Qed.

Lemma areas_of_unfold (db : Database) :
  areas_of db
  = map (fun key : string * string =>
           mkArea (snd key) (fst key)
             (all venue_identity (filter (in_area key) (venues db))))
      (nodup area_eq_dec
         (map (fun v => (Venue.state v, Venue.city v)) (venues db))).
Proof.
  unfold areas_of. apply map_ext. intros [state city]. reflexivity.
Qed.

Lemma all_first {R} (identity : R -> list nat) (x : R) (rows : list R) :
  exists rest, all identity (x :: rows) = x :: rest.
Proof. unfold all. cbn. eexists. reflexivity. Qed.

Lemma in_areas_of (db : Database) (area : Area) :
  In area (areas_of db)
  <-> (exists v, In v (venues db)
                 /\ (Venue.state v, Venue.city v) = area_key area)
      /\ area_venues area
         = all venue_identity (filter (in_area (area_key area)) (venues db)).
Proof.
  rewrite areas_of_unfold, in_map_iff. split.
  - intros ([state city] & <- & Hin). apply nodup_In in Hin.
    apply in_map_iff in Hin as (v & E & Hv). cbn.
    split; [exists v; auto | reflexivity].
  - intros ((v & Hv & E) & Hvs). exists (area_key area).
    destruct area as [city state vs]. unfold area_key in *. cbn in *.
    subst vs. split; [reflexivity|].
    apply nodup_In. rewrite <- E. now apply (in_map (fun v => (Venue.state v, Venue.city v))).
Qed.

(** X1: the areas of the venue listing carry pairwise distinct (state, city)
    pairs, no area is empty, every venue listed in an area is a stored venue
    with that area's state and city, and an empty venue table gives no
    area. *)
Theorem venue_areas_are_sound (db : Database) :
  NoDup (map area_key (areas_of db))
  /\ (forall area,
        In area (areas_of db) ->
        area_venues area <> []
        /\ forall v,
             In v (area_venues area) ->
             In v (venues db)
             /\ Venue.state v = area_state area
             /\ Venue.city v = area_city area)
  /\ (venues db = [] -> areas_of db = []).
Proof.
  split; [|split].
  - rewrite areas_of_unfold, map_map.
    rewrite (map_ext _ (fun key => key)) by (intros []; reflexivity).
    rewrite map_id.
    apply NoDup_nodup.
  - intros area Harea. apply in_areas_of in Harea as ((v0 & Hv0 & E0) & ->).
    split.
    + apply in_area_spec in E0.
      assert (Hin : In v0 (filter (in_area (area_key area)) (venues db)))
        by (apply filter_In; auto).
      destruct (filter _ _) as [|x rows]; [destruct Hin|].
      destruct (all_first venue_identity x rows) as (rest & ->). discriminate.
    + intros v Hv. apply in_all, filter_In in Hv as (Hv & Hk).
      apply in_area_spec in Hk. inversion Hk. auto.
  - intros E. unfold areas_of. rewrite E. reflexivity.
Qed.

Lemma flat_map_agree {A B} (f g : A -> list B) (l : list A) :
  (forall a, In a l -> f a = g a) -> flat_map f l = flat_map g l.
Proof.
  induction l as [|a l IH]; intros H; [reflexivity|].
  cbn [flat_map]. rewrite (H a (or_introl eq_refl)), IH; [reflexivity|].
  intros; apply H; now right.
Qed.

Section Grouping.
Context {T K : Type} (key : T -> K) (same : K -> T -> bool).
Hypothesis same_spec : forall k x, same k x = true <-> key x = k.

Lemma group_sizes (ks : list K) :
  NoDup ks ->
  forall l,
    (forall x, In x l -> In (key x) ks) ->
    List.length (flat_map (fun k => filter (same k) l) ks) = List.length l.
Proof.
  induction 1 as [|k ks Hnotin Hnd IH]; intros l Hl.
  - destruct l as [|x l]; [reflexivity|]. destruct (Hl x (or_introl eq_refl)).
  - cbn [flat_map]. rewrite length_app.
    rewrite <- (filter_length (same k) l). f_equal.
    rewrite <- (IH (filter (fun x => negb (same k x)) l)).
    + f_equal. apply flat_map_agree. intros k' Hk'.
      clear IH Hl. induction l as [|x l IHl]; [reflexivity|].
      cbn [filter]. destruct (same k x) eqn:E; cbn [negb].
      * destruct (same k' x) eqn:E'; [|exact IHl].
        apply same_spec in E, E'. exfalso. apply Hnotin. congruence.
      * cbn [filter]. destruct (same k' x); [f_equal|]; exact IHl.
    + intros x Hx. apply filter_In in Hx as (Hx & Hne).
      destruct (Hl x Hx) as [E | Hin]; [|exact Hin].
      symmetry in E. apply same_spec in E. rewrite E in Hne. discriminate.
Qed.
End Grouping.

Lemma venue_in_its_area (db : Database) (v : Venue.t) :
  NoDup (map Venue.id (venues db)) ->
  In v (venues db) ->
  exists area,
    In area (areas_of db)
    /\ area_state area = Venue.state v
    /\ area_city area = Venue.city v
    /\ In v (area_venues area).
Proof.
  intros Hv Hin.
  exists (mkArea (Venue.city v) (Venue.state v)
            (all venue_identity
               (filter (in_area (Venue.state v, Venue.city v)) (venues db)))).
  split; [|split; [reflexivity|split; [reflexivity|]]].
  - apply in_areas_of. cbn. split; [exists v; auto | reflexivity].
  - cbn. rewrite (all_by_key Venue.id) by now apply filter_keeps_keys.
    apply filter_In. split; [assumption|]. now apply in_area_spec.
Qed.

(** X2: under unique primary keys every stored venue is listed in the area of
    its own state and city, and the areas together list as many venues as
    the table holds. *)
Theorem venue_areas_cover_the_table (db : Database) :
  keys_unique db ->
  (forall v,
     In v (venues db) ->
     exists area,
       In area (areas_of db)
       /\ area_state area = Venue.state v
       /\ area_city area = Venue.city v
       /\ In v (area_venues area))
  /\ List.length (flat_map area_venues (areas_of db))
     = List.length (venues db).
Proof.
  intros (Hv & _). split; [intros v; now apply venue_in_its_area|].
  rewrite areas_of_unfold, flat_map_concat_map, map_map,
    <- flat_map_concat_map. cbn [area_venues].
  rewrite (flat_map_ext _ (fun key => filter (in_area key) (venues db)))
    by (intros key; apply (all_by_key Venue.id); now apply filter_keeps_keys).
  apply (group_sizes (fun v => (Venue.state v, Venue.city v)) in_area).
  - intros k x. apply in_area_spec.
  - apply NoDup_nodup.
  - intros x Hx. apply nodup_In.
    now apply (in_map (fun v => (Venue.state v, Venue.city v))).
Qed.

Lemma venue_areas_cover_the_table_witness :
  keys_unique sample_db
  /\ List.length (flat_map area_venues (areas_of sample_db)) = 2.
Proof.
  split; [exact sample_keys_unique|].
  exact (proj2 (venue_areas_cover_the_table sample_db sample_keys_unique)).
Defined.

(* ------------------------------------------------------------------------- *)
(** ** Listings, read-only routes and form routes *)
(* ------------------------------------------------------------------------- *)

(** X3: under unique primary keys the show listing holds each show at most
    once and holds a show exactly when rows exist for both its artist key
    and its venue key; with referential integrity it is the whole show
    table. *)
Theorem shows_listing_is_the_inner_join (db : Database) :
  keys_unique db ->
  let listing := all show_identity (shows_query db) in
  fst (shows_handler (fresh_world db))
  = Ok (render_template "pages/shows.html" (ShowsPage listing))
  /\ NoDup (map Show.id listing)
  /\ (forall s,
        In s listing
        <-> In s (shows db)
            /\ (exists a, In a (artists db) /\ Artist.id a = Show.artist_id s)
            /\ (exists v, In v (venues db) /\ Venue.id v = Show.venue_id s))
  /\ (references_exist db -> listing = shows db).
Proof.
  intros Hk listing.
  assert (Hkeys : NoDup (map Show.id (shows_query db))).
  { unfold shows_query. rewrite map_map. now apply show_rows_keys. }
  assert (E : listing = shows_query db) by now apply (all_by_key Show.id).
  split; [reflexivity|]. rewrite E. split; [assumption|]. split.
  - intros s. unfold shows_query. rewrite in_map_iff. split.
    + intros ([[s' a] v] & Es & Hin). cbn in Es. subst s'.
      apply in_show_rows in Hin as (Hs & Ha & Ea & Hv & Ev).
      split; [assumption|]. split; [exists a | exists v]; auto.
    + intros (Hs & (a & Ha & Ea) & (v & Hv & Ev)).
      exists (s, a, v). split; [reflexivity|]. apply in_show_rows. auto.
  - intros Hrefs. now apply shows_query_total.
Qed.

Lemma shows_listing_is_the_inner_join_witness :
  keys_unique sample_db
  /\ all show_identity (shows_query sample_db)
     = [petals_at_jazz_club; quevedo_at_fillmore].
Proof.
  split; [exact sample_keys_unique|].
  destruct (shows_listing_is_the_inner_join sample_db sample_keys_unique)
    as (_ & _ & _ & H).
  exact (H sample_references_exist).
Defined.

(** X4: the home page, the three listings, the three searches and the two
    detail routes leave the committed rows, the pending transaction, the
    session calls and the flashed messages as they found them. *)
Theorem read_routes_write_nothing (d : Dialect) (w : World) :
  nothing_written w (snd (index w))
  /\ nothing_written w (snd (venues_handler w))
  /\ nothing_written w (snd (artists_handler w))
  /\ nothing_written w (snd (shows_handler w))
  /\ (forall q,
        nothing_written w (snd (search_venues d q w))
        /\ nothing_written w (snd (search_artists d q w))
        /\ nothing_written w (snd (search_shows d q w)))
  /\ (forall i t1 t2,
        nothing_written w (snd (show_venue i t1 t2 w))
        /\ nothing_written w (snd (show_artist i t1 t2 w))).
Proof.
  unfold nothing_written.
  split; [cbn; auto|]. split; [cbn; auto|]. split; [cbn; auto|].
  split; [cbn; auto|]. split; [intros q; cbn; auto 20|].
  intros i t1 t2. run.
  destruct (find_row i (venues (working w)));
    destruct (find_row i (artists (working w))); cbn; auto 20.
Qed.

(** X5: for a key with no row, the detail route and the edit route abort with
    404 whatever the clock, the request method, the submitted fields or the
    commit outcome, and the edit route writes nothing. *)
Theorem missing_key_aborts_with_404
    (forms : Validators) (i : nat) (w : World) :
  (find_row i (venues (working w)) = None ->
   (forall t1 t2, fst (show_venue i t1 t2 w) = Abort 404)
   /\ forall req b,
        fst (edit_venue forms i req b w) = Abort 404
        /\ nothing_written w (snd (edit_venue forms i req b w)))
  /\ (find_row i (artists (working w)) = None ->
      (forall t1 t2, fst (show_artist i t1 t2 w) = Abort 404)
      /\ forall req b,
           fst (edit_artist forms i req b w) = Abort 404
           /\ nothing_written w (snd (edit_artist forms i req b w))).
Proof.
  split; intros Hf; (split; [intros t1 t2; run; now rewrite Hf|]);
    intros req b; run; rewrite Hf; cbn; repeat split.
Qed.

Lemma missing_key_aborts_with_404_witness :
  find_row 7 (venues (working (fresh_world sample_db))) = None
  /\ fst (show_venue 7 0 0 (fresh_world sample_db)) = Abort 404.
Proof.
  split; [reflexivity|].
  exact (proj1 (proj1 (missing_key_aborts_with_404 sample_forms 7
                         (fresh_world sample_db)) eq_refl) 0%Z 0%Z).
Defined.

(** X6: a GET on a create route renders its form unbound, with the field
    defaults and none of the fields the request may carry, and leaves the
    world as it was, whatever the validators say; a GET on an edit route of
    an existing row renders the edit form filled with the row's current
    values and writes nothing. *)
Theorem get_renders_the_form (forms : Validators) (w : World) :
  (forall req b,
     method req = GET ->
     create_venue forms req b w
     = (Ok (render_template "forms/new_venue.html"
              (NewVenueForm (unbound_venue forms))), w))
  /\ (forall req b,
        method req = GET ->
        create_artist forms req b w
        = (Ok (render_template "forms/new_artist.html"
                 (NewArtistForm (unbound_artist forms))), w))
  /\ (forall req b,
        method req = GET ->
        create_show forms req b w
        = (Ok (render_template "forms/new_show.html"
                 (NewShowForm (unbound_show forms))), w))
  /\ (forall i req b venue,
        method req = GET ->
        find_row i (venues (working w)) = Some venue ->
        fst (edit_venue forms i req b w)
        = Ok (render_template "forms/edit_venue.html"
                (EditVenueForm (VenueForm.of_obj venue) (Venue.name venue)))
        /\ nothing_written w (snd (edit_venue forms i req b w)))
  /\ (forall i req b artist,
        method req = GET ->
        find_row i (artists (working w)) = Some artist ->
        fst (edit_artist forms i req b w)
        = Ok (render_template "forms/edit_artist.html"
                (EditArtistForm (ArtistForm.of_obj artist)
                   (Artist.name artist)))
        /\ nothing_written w (snd (edit_artist forms i req b w))).
Proof.
  split; [intros req b Hm;
          unfold create_venue, validate_on_submit, bound_form;
          now rewrite Hm|].
  split; [intros req b Hm;
          unfold create_artist, validate_on_submit, bound_form;
          now rewrite Hm|].
  split; [intros req b Hm;
          unfold create_show, validate_on_submit, bound_form;
          now rewrite Hm|].
  split; intros i req b row Hm Hf; run;
    unfold validate_on_submit, bound_form; rewrite Hf, Hm; cbn;
    repeat split.
Qed.

Lemma get_renders_the_form_witness :
  method (mkRequest GET petals_form) = GET
  /\ create_artist sample_forms (mkRequest GET petals_form) false
       (fresh_world sample_db)
     = (Ok (render_template "forms/new_artist.html"
              (NewArtistForm (ArtistForm.of_obj blank_artist))),
        fresh_world sample_db)
  /\ find_row 2 (artists (working (fresh_world sample_db))) = Some quevedo
  /\ fst (edit_artist sample_forms 2 (mkRequest GET petals_form) false
            (fresh_world sample_db))
     = Ok (render_template "forms/edit_artist.html"
             (EditArtistForm (ArtistForm.of_obj quevedo) "Matt Quevedo")).
Proof.
  destruct (get_renders_the_form sample_forms (fresh_world sample_db))
    as (_ & Hcreate & _ & _ & H).
  split; [reflexivity|].
  split; [exact (Hcreate (mkRequest GET petals_form) false eq_refl)|].
  split; [reflexivity|].
  exact (proj1 (H 2 (mkRequest GET petals_form) false quevedo eq_refl eq_refl)).
Defined.

(** X7: when a create or edit submission is valid and its commit succeeds, the
    only session calls made are add and commit and the session is left
    open. *)
Theorem committed_writes_leave_the_session_open
    (forms : Validators) (w : World) :
  (forall req,
     validate_on_submit (validate_venue forms) req = true ->
     session_open (snd (create_venue forms req false w)) = true
     /\ calls (snd (create_venue forms req false w)) = calls w ++ [Add; Commit])
  /\ (forall req,
        validate_on_submit (validate_artist forms) req = true ->
        session_open (snd (create_artist forms req false w)) = true
        /\ calls (snd (create_artist forms req false w))
           = calls w ++ [Add; Commit])
  /\ (forall req,
        validate_on_submit (validate_show forms) req = true ->
        session_open (snd (create_show forms req false w)) = true
        /\ calls (snd (create_show forms req false w))
           = calls w ++ [Add; Commit])
  /\ (forall i req venue,
        find_row i (venues (working w)) = Some venue ->
        validate_on_submit (validate_venue forms) req = true ->
        session_open (snd (edit_venue forms i req false w)) = true
        /\ calls (snd (edit_venue forms i req false w))
           = calls w ++ [Add; Commit])
  /\ (forall i req artist,
        find_row i (artists (working w)) = Some artist ->
        validate_on_submit (validate_artist forms) req = true ->
        session_open (snd (edit_artist forms i req false w)) = true
        /\ calls (snd (edit_artist forms i req false w))
           = calls w ++ [Add; Commit]).
Proof.
  split; [intros req Hv; run; rewrite Hv; cbn; now rewrite <- !app_assoc|].
  split; [intros req Hv; run; rewrite Hv; cbn; now rewrite <- !app_assoc|].
  split; [intros req Hv; run; rewrite Hv; cbn; now rewrite <- !app_assoc|].
  split; intros i req row Hf Hv; run; rewrite Hf, Hv; cbn;
    now rewrite <- !app_assoc.
Qed.

Lemma committed_writes_leave_the_session_open_witness :
  validate_on_submit (validate_venue sample_forms)
    (mkRequest POST fillmore_form) = true
  /\ session_open
       (snd (create_venue sample_forms (mkRequest POST fillmore_form) false
               (fresh_world sample_db))) = true.
Proof.
  split; [reflexivity|].
  exact (proj1 (proj1 (committed_writes_leave_the_session_open sample_forms
                         (fresh_world sample_db))
                  (mkRequest POST fillmore_form) eq_refl)).
Defined.

(* ------------------------------------------------------------------------- *)
(** ** Detail pages and searches, further *)
(* ------------------------------------------------------------------------- *)

Lemma venue_show_rows_keys (db : Database) :
  keys_unique db ->
  NoDup (map (fun r : Venue.t * Show.t * Artist.t => pair_identity (fst r))
           (venue_show_artist db)).
Proof.
  intros (Hv & Ha & Hs). unfold venue_show_artist.
  apply (join_keys (list nat) (fun x : Venue.t * Show.t => pair_identity x)).
  - now apply (join_pair_keys Venue.id Show.id).
  - intros x _. now apply filter_key_short.
Qed.

Lemma artist_rows_all (db : Database)
    (p : Venue.t * Show.t * Artist.t -> bool) :
  keys_unique db ->
  all pair_identity (map fst (filter p (venue_show_artist db)))
  = map fst (filter p (venue_show_artist db)).
Proof.
  intros Hk. apply all_distinct. rewrite map_map.
  now apply filter_keeps_keys, venue_show_rows_keys.
Qed.

(** X8: under unique primary keys the past and upcoming counts of the venue
    page and of the artist page equal the lengths of the lists shown beside
    them. *)
Theorem detail_counts_are_list_lengths
    (i : nat) (t1 t2 : Z) (db : Database) :
  keys_unique db ->
  (past_shows_count (venue_listing i t1 t2 db)
   = List.length (past_shows (venue_listing i t1 t2 db))
   /\ upcoming_shows_count (venue_listing i t1 t2 db)
      = List.length (upcoming_shows (venue_listing i t1 t2 db)))
  /\ (past_shows_count (artist_listing i t1 t2 db)
      = List.length (past_shows (artist_listing i t1 t2 db))
      /\ upcoming_shows_count (artist_listing i t1 t2 db)
         = List.length (upcoming_shows (artist_listing i t1 t2 db))).
Proof.
  intros Hk. unfold venue_listing, artist_listing. cbn.
  unfold venue_past_shows, venue_upcoming_shows, artist_past_shows,
    artist_upcoming_shows, count.
  rewrite !(venue_rows_all db Hk), !(artist_rows_all db _ Hk), !length_map.
  auto.
Qed.

Lemma detail_counts_are_list_lengths_witness :
  keys_unique sample_db
  /\ upcoming_shows_count (venue_listing 1 200 200 sample_db)
     = List.length (upcoming_shows (venue_listing 1 200 200 sample_db)).
Proof.
  split; [exact sample_keys_unique|].
  exact (proj2 (proj1 (detail_counts_are_list_lengths 1 200 200 sample_db
                         sample_keys_unique))).
Defined.

Lemma in_venue_rows (db : Database) (p : Show.t -> bool) (vid : nat)
    (s : Show.t) :
  keys_unique db ->
  In s (map snd
          (all pair_identity
             (map fst
                (filter (fun r : Artist.t * Show.t * Venue.t =>
                           (Show.venue_id (snd (fst r)) =? vid)
                           && (Show.artist_id (snd (fst r))
                               =? Artist.id (fst (fst r)))
                           && p (snd (fst r)))
                   (artist_show_venue db)))))
  <-> In s (shows db) /\ Show.venue_id s = vid /\ p s = true
      /\ (exists a, In a (artists db) /\ Artist.id a = Show.artist_id s)
      /\ (exists v, In v (venues db) /\ Venue.id v = Show.venue_id s).
Proof.
  intros Hk. rewrite (venue_rows_all db Hk), map_map, in_map_iff. split.
  - intros ([[a s'] v] & E & Hin). cbn in E. subst s'.
    apply filter_In in Hin as (Hin & Hp). cbn [fst snd] in Hp.
    apply andb_prop in Hp as (Hp & Hps). apply andb_prop in Hp as (Hv & Ha).
    apply Nat.eqb_eq in Hv, Ha.
    apply (in_artist_show_rows db) in Hin as (Hina & Hins & Ea & Hinv & Ev).
    repeat split; try assumption; [exists a | exists v]; auto.
  - intros (Hs & Hv & Hp & (a & Ha & Ea) & (v & Hinv & Ev)).
    exists (a, s, v). split; [reflexivity|]. apply filter_In. split.
    + apply in_artist_show_rows; auto.
    + cbn [fst snd]. rewrite Hp, Hv, Ea, !Nat.eqb_refl. reflexivity.
Qed.

(** X9: with unique keys and referential integrity, a show of the venue is in
    the past list exactly when it starts before the clock value of the first
    query and in the upcoming list exactly when it starts at or after the
    clock value of the second; so it is never in both when the clock did not
    go back, and it is in neither when it starts between the two reads. *)
Theorem venue_lists_follow_their_own_clock
    (db : Database) (vid : nat) (t1 t2 : Z) (s : Show.t) :
  keys_unique db -> references_exist db ->
  In s (shows db) -> Show.venue_id s = vid ->
  let past := map snd (all pair_identity (venue_past_shows vid t1 db)) in
  let upcoming :=
    map snd (all pair_identity (venue_upcoming_shows vid t2 db)) in
  (In s past <-> (Show.start_time s < t1)%Z)
  /\ (In s upcoming <-> (t2 <= Show.start_time s)%Z)
  /\ ((t1 <= t2)%Z -> ~ (In s past /\ In s upcoming))
  /\ ((t1 <= Show.start_time s < t2)%Z -> ~ In s past /\ ~ In s upcoming).
Proof.
  intros Hk Hrefs Hs Hv past upcoming.
  assert (Hp : In s past <-> (Show.start_time s < t1)%Z).
  { subst past. unfold venue_past_shows.
    rewrite (in_venue_rows db (fun s => (Show.start_time s <? t1)%Z) vid s Hk).
    rewrite Z.ltb_lt. destruct (Hrefs s Hs) as (Hev & Hea). tauto. }
  assert (Hu : In s upcoming <-> (t2 <= Show.start_time s)%Z).
  { subst upcoming. unfold venue_upcoming_shows.
    rewrite (in_venue_rows db (fun s => (Show.start_time s >=? t2)%Z) vid s Hk).
    rewrite Z.geb_le. destruct (Hrefs s Hs) as (Hev & Hea). tauto. }
  split; [exact Hp|]. split; [exact Hu|]. rewrite Hp, Hu. split; lia.
Qed.

Lemma venue_lists_follow_their_own_clock_witness :
  keys_unique sample_db /\ references_exist sample_db
  /\ In quevedo_at_fillmore (shows sample_db)
  /\ Show.venue_id quevedo_at_fillmore = 1
  /\ ~ In quevedo_at_fillmore
         (map snd (all pair_identity (venue_past_shows 1 300 sample_db)))
  /\ ~ In quevedo_at_fillmore
         (map snd (all pair_identity (venue_upcoming_shows 1 301 sample_db))).
Proof.
  split; [exact sample_keys_unique|]. split; [exact sample_references_exist|].
  split; [right; left; reflexivity|]. split; [reflexivity|].
  destruct (venue_lists_follow_their_own_clock sample_db 1 300 301
              quevedo_at_fillmore sample_keys_unique sample_references_exist
              (or_intror (or_introl eq_refl)) eq_refl) as (_ & _ & _ & H).
  apply H. cbn. lia.
Defined.

Lemma ilike_folds_case (d : Dialect) (q1 q2 name1 name2 : string) :
  lower (chars q1) = lower (chars q2) ->
  lower (chars name1) = lower (chars name2) ->
  ilike d name1 (search_pattern q1) = ilike d name2 (search_pattern q2).
Proof.
  intros Eq En. unfold ilike. now rewrite !lower_pattern, Eq, En.
Qed.

(** X10: two search terms that differ only in the case of their letters get the
    same answer (count and rows) from each of the three searches. *)
Theorem search_ignores_the_case_of_the_term
    (d : Dialect) (q1 q2 : string) (db : Database) :
  lower (chars q1) = lower (chars q2) ->
  venues_response d q1 db = venues_response d q2 db
  /\ artists_response d q1 db = artists_response d q2 db
  /\ shows_response d q1 db = shows_response d q2 db.
Proof.
  intros Eq.
  assert (Ev : venues_query d q1 db = venues_query d q2 db)
    by (apply filter_ext; intros v; now apply ilike_folds_case).
  assert (Ea : artists_query d q1 db = artists_query d q2 db)
    by (apply filter_ext; intros a; now apply ilike_folds_case).
  assert (Es : shows_search_query d q1 db = shows_search_query d q2 db).
  { unfold shows_search_query. f_equal. apply filter_ext. intros r.
    now rewrite (ilike_folds_case d q1 q2 _ _ Eq eq_refl),
      (ilike_folds_case d q1 q2 (Artist.name _) _ Eq eq_refl). }
  unfold venues_response, artists_response, shows_response.
  now rewrite Ev, Ea, Es.
Qed.

Lemma search_ignores_the_case_of_the_term_witness :
  lower (chars "JaZZ") = lower (chars "jazz")
  /\ venues_response BackslashEscape "JaZZ" sample_db
     = venues_response BackslashEscape "jazz" sample_db.
Proof.
  split; [reflexivity|].
  exact (proj1 (search_ignores_the_case_of_the_term BackslashEscape "JaZZ"
                  "jazz" sample_db eq_refl)).
Defined.

(** X11: under unique primary keys, for every term, a show is returned by the
    show search exactly when rows exist for its artist and venue keys and
    the venue is returned by the venue search or the artist by the artist
    search. *)
Theorem show_search_joins_the_two_name_searches
    (d : Dialect) (q : string) (db : Database) (s : Show.t) :
  keys_unique db ->
  In s (results_data (shows_response d q db))
  <-> In s (shows db)
      /\ exists a v,
           In a (artists db) /\ Artist.id a = Show.artist_id s
           /\ In v (venues db) /\ Venue.id v = Show.venue_id s
           /\ (In v (results_data (venues_response d q db))
               \/ In a (results_data (artists_response d q db))).
Proof.
  intros Hk.
  rewrite shows_response_data, in_shows_search by assumption.
  rewrite venues_response_data, artists_response_data by assumption.
  unfold venues_query, artists_query.
  split; intros (Hs & a & v & Ha & Ea & Hv & Ev & H);
    (split; [assumption|]); exists a, v;
    rewrite ?filter_In in *; tauto.
Qed.

Lemma show_search_joins_the_two_name_searches_witness :
  keys_unique sample_db
  /\ In petals_at_jazz_club
       (results_data (shows_response BackslashEscape "jazz" sample_db)).
Proof.
  split; [exact sample_keys_unique|].
  apply (show_search_joins_the_two_name_searches BackslashEscape "jazz"
           sample_db petals_at_jazz_club sample_keys_unique).
  split; [left; reflexivity|]. exists petals, jazz_club.
  repeat split; try (cbn; auto; fail).
  left. vm_compute. auto.
Defined.

(* ------------------------------------------------------------------------- *)
(** ** Rows after a write *)
(* ------------------------------------------------------------------------- *)

Lemma fresh_id_new (ids : list nat) : ~ In (fresh_id ids) ids.
Proof. intros Hin. apply fresh_id_above in Hin. lia. Qed.

Section RowFacts.
Context {T : Type} `{Model T}.

Lemma insert_keeps_keys (x : T) (rows : list T) :
  ~ In (pk x) (map pk rows) ->
  NoDup (map pk rows) -> NoDup (map pk (insert_row x rows)).
Proof.
  intros Hnew Hnd. unfold insert_row. rewrite map_app. apply NoDup_app.
  - assumption.
  - cbn. constructor; [intros [] | constructor].
  - intros k Hk [<- | []]. contradiction.
Qed.

Lemma update_keeps_keys (x : T) (rows : list T) :
  map pk (update_row x rows) = map pk rows.
Proof.
  unfold update_row. rewrite map_map. apply map_ext_in. intros r _.
  destruct (Nat.eqb_spec (pk r) (pk x)); congruence.
Qed.

Lemma find_row_insert_other (j : nat) (x : T) (rows : list T) (r : T) :
  find_row j rows = Some r -> find_row j (insert_row x rows) = Some r.
Proof.
  unfold find_row, insert_row. induction rows as [|y rows IH]; [discriminate|].
  cbn [find app]. destruct (pk y =? j); auto.
Qed.

Lemma find_row_updated (x : T) (rows : list T) (r : T) :
  find_row (pk x) rows = Some r -> find_row (pk x) (update_row x rows) = Some x.
Proof.
  unfold find_row, update_row. induction rows as [|y rows IH]; [discriminate|].
  cbn [find map]. destruct (Nat.eqb_spec (pk y) (pk x)) as [E | Hne].
  - intros _. now rewrite Nat.eqb_refl.
  - destruct (Nat.eqb_spec (pk y) (pk x)); [contradiction | exact IH].
Qed.

Lemma find_row_update_other (j : nat) (x : T) (rows : list T) :
  j <> pk x -> find_row j (update_row x rows) = find_row j rows.
Proof.
  intros Hne. unfold find_row, update_row.
  induction rows as [|y rows IH]; [reflexivity|].
  cbn [find map]. destruct (Nat.eqb_spec (pk y) (pk x)) as [E | _].
  - destruct (Nat.eqb_spec (pk x) j); [congruence|].
    destruct (Nat.eqb_spec (pk y) j); [congruence | exact IH].
  - destruct (pk y =? j); [reflexivity | exact IH].
Qed.

Lemma find_row_delete_other (i j : nat) (rows : list T) :
  j <> i -> find_row j (delete_row i rows) = find_row j rows.
Proof.
  intros Hne. unfold find_row, delete_row.
  induction rows as [|y rows IH]; [reflexivity|].
  cbn [find filter]. destruct (Nat.eqb_spec (pk y) i) as [E | _]; cbn [negb].
  - destruct (Nat.eqb_spec (pk y) j); [congruence | exact IH].
  - cbn [find]. destruct (pk y =? j); [reflexivity | exact IH].
Qed.

(** Under unique keys, writing back the row that is stored changes
    nothing. *)
Lemma update_same_row (x : T) (rows : list T) :
  NoDup (map pk rows) -> In x rows -> update_row x rows = rows.
Proof.
  intros Hnd Hin. unfold update_row.
  rewrite <- (map_id rows) at 2. apply map_ext_in. intros r Hr.
  destruct (Nat.eqb_spec (pk r) (pk x)) as [E | _]; [|reflexivity].
  pose proof (filter_key_single pk x rows Hnd Hin) as Hx.
  assert (Hrx : In r (filter (fun r => pk r =? pk x) rows))
    by (apply filter_In; split; [assumption | now apply Nat.eqb_eq]).
  rewrite Hx in Hrx. destruct Hrx as [-> | []]. reflexivity.
Qed.
End RowFacts.

Section AfterCreate.
Variable forms : Validators.
Variable w : World.

Lemma create_venue_stored (req : Request VenueForm.t) :
  validate_on_submit (validate_venue forms) req = true ->
  stored (snd (create_venue forms req false w))
  = mkDatabase (venues (working w) ++ [new_venue w req])
      (artists (working w)) (shows (working w)).
Proof.
  intros Hv. run. rewrite Hv.
  apply validate_on_submit_post in Hv as (Hm & _).
  unfold bound_form. rewrite Hm. reflexivity.
Qed.

Lemma create_artist_stored (req : Request ArtistForm.t) :
  validate_on_submit (validate_artist forms) req = true ->
  stored (snd (create_artist forms req false w))
  = mkDatabase (venues (working w))
      (artists (working w) ++ [new_artist w req]) (shows (working w)).
Proof.
  intros Hv. run. rewrite Hv.
  apply validate_on_submit_post in Hv as (Hm & _).
  unfold bound_form. rewrite Hm. reflexivity.
Qed.

Lemma create_show_stored (req : Request ShowForm.t) :
  validate_on_submit (validate_show forms) req = true ->
  stored (snd (create_show forms req false w))
  = mkDatabase (venues (working w)) (artists (working w))
      (shows (working w) ++ [new_show w req]).
Proof.
  intros Hv. run. rewrite Hv.
  apply validate_on_submit_post in Hv as (Hm & _).
  unfold bound_form. rewrite Hm. reflexivity.
Qed.
End AfterCreate.

Lemma new_venue_fields (w : World) (req : Request VenueForm.t) :
  VenueForm.of_obj (new_venue w req) = formdata req.
Proof. unfold new_venue. destruct (formdata req). reflexivity. Qed.


Lemma no_shows_at_a_new_venue (db : Database) (x : Venue.t) (t : Z) :
  references_exist db ->
  ~ In (Venue.id x) (map Venue.id (venues db)) ->
  let db' := mkDatabase (venues db ++ [x]) (artists db) (shows db) in
  venue_past_shows (Venue.id x) t db' = []
  /\ venue_upcoming_shows (Venue.id x) t db' = [].
Proof.
  intros Hrefs Hnew db'.
  assert (Hno : forall r, In r (artist_show_venue db') ->
                  (Show.venue_id (snd (fst r)) =? Venue.id x) = false).
  { intros [[a s] v] Hin. apply in_artist_show_rows in Hin as (_ & Hs & _).
    cbn [fst snd]. apply Nat.eqb_neq. intros E.
    destruct (Hrefs s Hs) as ((v' & Hv' & Ev') & _).
    apply Hnew. rewrite <- E, <- Ev'. now apply in_map. }
  unfold venue_past_shows, venue_upcoming_shows.
  split; rewrite filter_none; try reflexivity;
    intros r Hr; cbv zeta; now rewrite (Hno r Hr).
Qed.

(** X12: after a valid venue submission whose commit succeeds (on rows with
    unique keys and referential integrity), the redirect goes to the new key,
    the stored row carries every submitted field, its detail page shows it
    with empty show lists, and the venue listing has an area of the submitted
    state and city that contains it. *)
Theorem created_venue_is_shown_and_listed
    (forms : Validators) (w : World) (req : Request VenueForm.t) :
  validate_on_submit (validate_venue forms) req = true ->
  keys_unique (working w) ->
  references_exist (working w) ->
  let db' := stored (snd (create_venue forms req false w)) in
  let venue := new_venue w req in
  fst (create_venue forms req false w)
  = Ok (redirect (show_venue_url (Venue.id venue)))
  /\ VenueForm.of_obj venue = formdata req
  /\ (forall t1 t2,
        fst (show_venue (Venue.id venue) t1 t2 (fresh_world db'))
        = Ok (render_template "pages/show_venue.html"
                (VenuePage venue (mkShows [] 0 [] 0))))
  /\ exists area,
       In area (areas_of db')
       /\ area_state area = VenueForm.state (formdata req)
       /\ area_city area = VenueForm.city (formdata req)
       /\ In venue (area_venues area).
Proof.
  intros Hv (Hkv & _) Hrefs db' venue.
  assert (Hnew : ~ In (Venue.id venue) (map Venue.id (venues (working w))))
    by apply fresh_id_new.
  assert (Edb : db' = mkDatabase (venues (working w) ++ [venue])
                        (artists (working w)) (shows (working w)))
    by now apply create_venue_stored.
  assert (Hfields : VenueForm.of_obj venue = formdata req)
    by apply new_venue_fields.
  split; [apply (create_venue_committed forms w req Hv)|].
  split; [exact Hfields|].
  clearbody db' venue. subst db'. split.
  - intros t1 t2.
    assert (Hl : venue_listing (Venue.id venue) t1 t2
                   (mkDatabase (venues (working w) ++ [venue])
                      (artists (working w)) (shows (working w)))
                 = mkShows [] 0 [] 0).
    { unfold venue_listing.
      destruct (no_shows_at_a_new_venue _ venue t1 Hrefs Hnew) as (-> & _).
      destruct (no_shows_at_a_new_venue _ venue t2 Hrefs Hnew) as (_ & ->).
      reflexivity. }
    pose proof (@find_row_inserted Venue.t VenueModel venue
                  (venues (working w)) Hnew) as Hfound.
    cbn [pk VenueModel] in Hfound. unfold insert_row in Hfound.
    run. cbn [working fresh_world venues]. rewrite Hfound.
    cbn -[venue_listing]. rewrite Hl. reflexivity.
  - destruct (venue_in_its_area
                (mkDatabase (venues (working w) ++ [venue])
                   (artists (working w)) (shows (working w))) venue)
      as (area & Ha & Es & Ec & Hin).
    + exact (@insert_keeps_keys Venue.t VenueModel venue
               (venues (working w)) Hnew Hkv).
    + cbn [venues]. apply in_or_app. right. now left.
    + exists area. rewrite Es, Ec, <- Hfields. auto.
Qed.

Lemma created_venue_is_shown_and_listed_witness :
  validate_on_submit (validate_venue sample_forms)
    (mkRequest POST fillmore_form) = true
  /\ keys_unique (working (fresh_world sample_db))
  /\ references_exist (working (fresh_world sample_db))
  /\ fst (show_venue 3 0 0
            (fresh_world
               (stored
                  (snd (create_venue sample_forms
                          (mkRequest POST fillmore_form) false
                          (fresh_world sample_db))))))
     = Ok (render_template "pages/show_venue.html"
             (VenuePage
                (new_venue (fresh_world sample_db)
                   (mkRequest POST fillmore_form))
                (mkShows [] 0 [] 0))).
Proof.
  split; [reflexivity|]. split; [exact sample_keys_unique|].
  split; [exact sample_references_exist|].
  destruct (created_venue_is_shown_and_listed sample_forms
              (fresh_world sample_db) (mkRequest POST fillmore_form) eq_refl
              sample_keys_unique sample_references_exist) as (_ & _ & H & _).
  exact (H 0%Z 0%Z).
Defined.



Lemma keys_unique_with_show (db : Database) (s : Show.t) :
  keys_unique db ->
  ~ In (Show.id s) (map Show.id (shows db)) ->
  keys_unique (mkDatabase (venues db) (artists db) (shows db ++ [s])).
Proof.
  intros (Hv & Ha & Hs) Hnew. repeat split; try assumption.
  exact (@insert_keeps_keys Show.t ShowModel s (shows db) Hnew Hs).
Qed.

(** X14: after a valid show submission for an existing artist and venue whose
    commit succeeds (on rows with unique keys), the new show is in the show
    listing, and the venue's detail page carries its card in the past list
    when it starts before the first clock value and in the upcoming list
    when it starts at or after the second. *)
Theorem created_show_is_listed
    (forms : Validators) (w : World) (req : Request ShowForm.t)
    (a : Artist.t) (v : Venue.t) :
  validate_on_submit (validate_show forms) req = true ->
  keys_unique (working w) ->
  In a (artists (working w)) ->
  Artist.id a = ShowForm.artist_id (formdata req) ->
  In v (venues (working w)) ->
  Venue.id v = ShowForm.venue_id (formdata req) ->
  let db' := stored (snd (create_show forms req false w)) in
  let show := new_show w req in
  In show (all show_identity (shows_query db'))
  /\ forall t1 t2,
       ((ShowForm.start_time (formdata req) < t1)%Z ->
        In (artist_card (a, show))
          (past_shows (venue_listing (Venue.id v) t1 t2 db')))
       /\ ((t2 <= ShowForm.start_time (formdata req))%Z ->
           In (artist_card (a, show))
             (upcoming_shows (venue_listing (Venue.id v) t1 t2 db'))).
Proof.
  intros Hv Hk Ha Ea Hin Ev db' show.
  assert (Hnew : ~ In (Show.id show) (map Show.id (shows (working w))))
    by apply fresh_id_new.
  assert (Edb : db' = mkDatabase (venues (working w)) (artists (working w))
                        (shows (working w) ++ [show]))
    by now apply create_show_stored.
  assert (Hsv : Show.venue_id show = Venue.id v) by (now rewrite Ev).
  assert (Hsa : Show.artist_id show = Artist.id a) by (now rewrite Ea).
  assert (Hst : Show.start_time show = ShowForm.start_time (formdata req))
    by reflexivity.
  clearbody db' show. subst db'.
  pose proof (keys_unique_with_show _ show Hk Hnew) as Hk'.
  set (db' := mkDatabase _ _ _) in *.
  assert (Hrow : In (a, show, v) (artist_show_venue db')).
  { apply in_artist_show_rows. cbn.
    repeat split; auto. apply in_or_app. right. now left. }
  split.
  - rewrite (all_by_key Show.id).
    + unfold shows_query. apply in_map_iff. exists (show, a, v).
      split; [reflexivity|]. apply in_show_rows. cbn.
      repeat split; auto. apply in_or_app. right. now left.
    + unfold shows_query. rewrite map_map. now apply show_rows_keys.
  - intros t1 t2. unfold venue_listing. cbn [past_shows upcoming_shows].
    unfold venue_past_shows, venue_upcoming_shows.
    rewrite !(venue_rows_all db' Hk'). split; intros Ht;
      apply in_map, in_map_iff; exists (a, show, v);
      (split; [reflexivity|]); apply filter_In; (split; [assumption|]);
      cbn [fst snd]; rewrite Hsv, Hsa, Hst, !Nat.eqb_refl; cbn [andb].
    + now apply Z.ltb_lt.
    + apply Z.geb_le. lia.
Qed.

Lemma created_show_is_listed_witness :
  validate_on_submit (validate_show sample_forms)
    (mkRequest POST sample_show_form) = true
  /\ keys_unique (working (fresh_world sample_db))
  /\ In quevedo (artists (working (fresh_world sample_db)))
  /\ Artist.id quevedo
     = ShowForm.artist_id (formdata (mkRequest POST sample_show_form))
  /\ In jazz_club (venues (working (fresh_world sample_db)))
  /\ Venue.id jazz_club
     = ShowForm.venue_id (formdata (mkRequest POST sample_show_form))
  /\ In (new_show (fresh_world sample_db) (mkRequest POST sample_show_form))
       (all show_identity
          (shows_query
             (stored
                (snd (create_show sample_forms
                        (mkRequest POST sample_show_form) false
                        (fresh_world sample_db)))))).
Proof.
  split; [reflexivity|]. split; [exact sample_keys_unique|].
  split; [right; left; reflexivity|]. split; [reflexivity|].
  split; [right; left; reflexivity|]. split; [reflexivity|].
  exact (proj1 (created_show_is_listed sample_forms (fresh_world sample_db)
                  (mkRequest POST sample_show_form) quevedo jazz_club eq_refl
                  sample_keys_unique (or_intror (or_introl eq_refl)) eq_refl
                  (or_intror (or_introl eq_refl)) eq_refl)).
Defined.

(** X15: a successful create adds exactly one row to its own table, leaves every
    earlier row of that table retrievable under its key, and leaves the
    other two tables as they were. *)
Theorem create_keeps_the_other_rows (forms : Validators) (w : World) :
  (forall req,
     validate_on_submit (validate_venue forms) req = true ->
     let db' := stored (snd (create_venue forms req false w)) in
     (forall j r, find_row j (venues (working w)) = Some r ->
                  find_row j (venues db') = Some r)
     /\ List.length (venues db') = S (List.length (venues (working w)))
     /\ artists db' = artists (working w)
     /\ shows db' = shows (working w))
  /\ (forall req,
        validate_on_submit (validate_artist forms) req = true ->
        let db' := stored (snd (create_artist forms req false w)) in
        (forall j r, find_row j (artists (working w)) = Some r ->
                     find_row j (artists db') = Some r)
        /\ List.length (artists db') = S (List.length (artists (working w)))
        /\ venues db' = venues (working w)
        /\ shows db' = shows (working w))
  /\ (forall req,
        validate_on_submit (validate_show forms) req = true ->
        let db' := stored (snd (create_show forms req false w)) in
        (forall j r, find_row j (shows (working w)) = Some r ->
                     find_row j (shows db') = Some r)
        /\ List.length (shows db') = S (List.length (shows (working w)))
        /\ venues db' = venues (working w)
        /\ artists db' = artists (working w)).
Proof.
  split; [|split]; intros req Hv db'; subst db'.
  - rewrite (create_venue_stored forms w req Hv). cbn [venues artists shows].
    split; [intros j r;
            exact (@find_row_insert_other Venue.t VenueModel j
                     (new_venue w req) (venues (working w)) r)|].
    rewrite length_app. cbn [List.length]. split; [lia | auto].
  - rewrite (create_artist_stored forms w req Hv). cbn [venues artists shows].
    split; [intros j r;
            exact (@find_row_insert_other Artist.t ArtistModel j
                     (new_artist w req) (artists (working w)) r)|].
    rewrite length_app. cbn [List.length]. split; [lia | auto].
  - rewrite (create_show_stored forms w req Hv). cbn [venues artists shows].
    split; [intros j r;
            exact (@find_row_insert_other Show.t ShowModel j
                     (new_show w req) (shows (working w)) r)|].
    rewrite length_app. cbn [List.length]. split; [lia | auto].
Qed.

Lemma create_keeps_the_other_rows_witness :
  validate_on_submit (validate_venue sample_forms)
    (mkRequest POST fillmore_form) = true
  /\ artists
       (stored (snd (create_venue sample_forms (mkRequest POST fillmore_form)
                       false (fresh_world sample_db))))
     = artists sample_db.
Proof.
  split; [reflexivity|].
  destruct (create_keeps_the_other_rows sample_forms (fresh_world sample_db))
    as (H & _).
  exact (proj1 (proj2 (proj2 (H (mkRequest POST fillmore_form) eq_refl)))).
Defined.

Section AfterEdit.
Variable forms : Validators.
Variable w : World.
Variable i : nat.

Lemma edit_venue_stored (req : Request VenueForm.t) (venue : Venue.t) :
  find_row i (venues (working w)) = Some venue ->
  validate_on_submit (validate_venue forms) req = true ->
  stored (snd (edit_venue forms i req false w))
  = mkDatabase
      (update_row (VenueForm.populate_obj (formdata req) venue)
         (venues (working w)))
      (artists (working w)) (shows (working w)).
Proof.
  intros Hf Hv.
  destruct (edit_venue_committed forms w i req venue Hf Hv) as (_ & _ & ->).
  reflexivity.
Qed.

Lemma edit_artist_stored (req : Request ArtistForm.t) (artist : Artist.t) :
  find_row i (artists (working w)) = Some artist ->
  validate_on_submit (validate_artist forms) req = true ->
  stored (snd (edit_artist forms i req false w))
  = mkDatabase (venues (working w))
      (update_row (ArtistForm.populate_obj (formdata req) artist)
         (artists (working w)))
      (shows (working w)).
Proof.
  intros Hf Hv.
  destruct (edit_artist_committed forms w i req artist Hf Hv) as (_ & _ & ->).
  reflexivity.
Qed.
End AfterEdit.

(** X16: after a valid edit whose commit succeeds, the row under the edited key
    keeps its key and carries every submitted field, the detail route shows
    it, rows under other keys and the key column are unchanged, and the
    other tables are untouched. *)
Theorem edited_row_is_read_back (forms : Validators) (w : World) (i : nat) :
  (forall req venue,
     find_row i (venues (working w)) = Some venue ->
     validate_on_submit (validate_venue forms) req = true ->
     let db' := stored (snd (edit_venue forms i req false w)) in
     let venue' := VenueForm.populate_obj (formdata req) venue in
     Venue.id venue' = i
     /\ VenueForm.of_obj venue' = formdata req
     /\ find_row i (venues db') = Some venue'
     /\ (forall t1 t2,
           fst (show_venue i t1 t2 (fresh_world db'))
           = Ok (render_template "pages/show_venue.html"
                   (VenuePage venue' (venue_listing i t1 t2 db'))))
     /\ (forall j, j <> i ->
           find_row j (venues db') = find_row j (venues (working w)))
     /\ map Venue.id (venues db') = map Venue.id (venues (working w))
     /\ artists db' = artists (working w)
     /\ shows db' = shows (working w))
  /\ (forall req artist,
        find_row i (artists (working w)) = Some artist ->
        validate_on_submit (validate_artist forms) req = true ->
        let db' := stored (snd (edit_artist forms i req false w)) in
        let artist' := ArtistForm.populate_obj (formdata req) artist in
        Artist.id artist' = i
        /\ ArtistForm.of_obj artist' = formdata req
        /\ find_row i (artists db') = Some artist'
        /\ (forall t1 t2,
              fst (show_artist i t1 t2 (fresh_world db'))
              = Ok (render_template "pages/show_artist.html"
                      (ArtistPage artist' (artist_listing i t1 t2 db'))))
        /\ (forall j, j <> i ->
              find_row j (artists db') = find_row j (artists (working w)))
        /\ map Artist.id (artists db') = map Artist.id (artists (working w))
        /\ venues db' = venues (working w)
        /\ shows db' = shows (working w)).
Proof.
  split.
  - intros req venue Hf Hv db' venue'.
    assert (Ei : Venue.id venue' = i)
      by (destruct (find_row_key _ _ _ Hf) as (_ & E); exact E).
    assert (Edb : db' = mkDatabase (update_row venue' (venues (working w)))
                          (artists (working w)) (shows (working w)))
      by now apply edit_venue_stored.
    assert (Hfound : find_row i (venues db') = Some venue').
    { rewrite Edb, <- Ei. cbn [venues].
      apply (@find_row_updated Venue.t VenueModel venue' _ venue).
      cbn [pk VenueModel]. now rewrite Ei. }
    split; [exact Ei|].
    split; [subst venue'; destruct (formdata req); reflexivity|].
    split; [exact Hfound|]. split.
    { intros t1 t2. run. cbn [working fresh_world]. rewrite Hfound.
      reflexivity. }
    rewrite Edb. cbn [venues artists shows]. split.
    { intros j Hj.
      apply (@find_row_update_other Venue.t VenueModel j venue').
      cbn [pk VenueModel]. now rewrite Ei. }
    split; [apply (@update_keeps_keys Venue.t VenueModel) | auto].
  - intros req artist Hf Hv db' artist'.
    assert (Ei : Artist.id artist' = i)
      by (destruct (find_row_key _ _ _ Hf) as (_ & E); exact E).
    assert (Edb : db' = mkDatabase (venues (working w))
                          (update_row artist' (artists (working w)))
                          (shows (working w)))
      by now apply edit_artist_stored.
    assert (Hfound : find_row i (artists db') = Some artist').
    { rewrite Edb, <- Ei. cbn [artists].
      apply (@find_row_updated Artist.t ArtistModel artist' _ artist).
      cbn [pk ArtistModel]. now rewrite Ei. }
    split; [exact Ei|].
    split; [subst artist'; destruct (formdata req); reflexivity|].
    split; [exact Hfound|]. split.
    { intros t1 t2. run. cbn [working fresh_world]. rewrite Hfound.
      reflexivity. }
    rewrite Edb. cbn [venues artists shows]. split.
    { intros j Hj.
      apply (@find_row_update_other Artist.t ArtistModel j artist').
      cbn [pk ArtistModel]. now rewrite Ei. }
    split; [apply (@update_keeps_keys Artist.t ArtistModel) | auto].
Qed.

Lemma edited_row_is_read_back_witness :
  find_row 1 (venues (working (fresh_world sample_db))) = Some fillmore
  /\ validate_on_submit (validate_venue sample_forms)
       (mkRequest POST renamed_fillmore_form) = true
  /\ find_row 1
       (venues
          (stored (snd (edit_venue sample_forms 1
                          (mkRequest POST renamed_fillmore_form) false
                          (fresh_world sample_db)))))
     = Some (VenueForm.populate_obj renamed_fillmore_form fillmore).
Proof.
  split; [reflexivity|]. split; [reflexivity|].
  destruct (edited_row_is_read_back sample_forms (fresh_world sample_db) 1)
    as (H & _).
  exact (proj1 (proj2 (proj2 (H (mkRequest POST renamed_fillmore_form)
                                fillmore eq_refl eq_refl)))).
Defined.

(** X17: under unique primary keys, posting back the values an edit form was
    filled with leaves the committed rows exactly as they were. *)
Theorem unchanged_resubmission_changes_nothing
    (forms : Validators) (w : World) (i : nat) :
  keys_unique (working w) ->
  (forall venue,
     find_row i (venues (working w)) = Some venue ->
     validate_venue forms (VenueForm.of_obj venue) = true ->
     stored (snd (edit_venue forms i
                    (mkRequest POST (VenueForm.of_obj venue)) false w))
     = working w)
  /\ (forall artist,
        find_row i (artists (working w)) = Some artist ->
        validate_artist forms (ArtistForm.of_obj artist) = true ->
        stored (snd (edit_artist forms i
                       (mkRequest POST (ArtistForm.of_obj artist)) false w))
        = working w).
Proof.
  intros (Hkv & Hka & _). split.
  - intros venue Hf Hv. rewrite (edit_venue_stored forms w i
               (mkRequest POST (VenueForm.of_obj venue)) venue Hf Hv).
    cbn [formdata].
    replace (VenueForm.populate_obj (VenueForm.of_obj venue) venue)
      with venue by (destruct venue; reflexivity).
    rewrite (@update_same_row Venue.t VenueModel venue _ Hkv).
    + destruct (working w); reflexivity.
    + now destruct (find_row_key _ _ _ Hf).
  - intros artist Hf Hv.
    rewrite (edit_artist_stored forms w i
               (mkRequest POST (ArtistForm.of_obj artist)) artist Hf Hv). cbn [formdata].
    replace (ArtistForm.populate_obj (ArtistForm.of_obj artist) artist)
      with artist by (destruct artist; reflexivity).
    rewrite (@update_same_row Artist.t ArtistModel artist _ Hka).
    + destruct (working w); reflexivity.
    + now destruct (find_row_key _ _ _ Hf).
Qed.

Lemma unchanged_resubmission_changes_nothing_witness :
  keys_unique (working (fresh_world sample_db))
  /\ find_row 2 (artists (working (fresh_world sample_db))) = Some quevedo
  /\ validate_artist sample_forms (ArtistForm.of_obj quevedo) = true
  /\ stored (snd (edit_artist sample_forms 2
                    (mkRequest POST (ArtistForm.of_obj quevedo)) false
                    (fresh_world sample_db)))
     = sample_db.
Proof.
  split; [exact sample_keys_unique|]. split; [reflexivity|].
  split; [reflexivity|].
  exact (proj2 (unchanged_resubmission_changes_nothing sample_forms
                  (fresh_world sample_db) 2 sample_keys_unique)
           quevedo eq_refl eq_refl).
Defined.

(** X18: with the path segment read as the key of an existing row, a
    successful delete leaves the rows under every other key retrievable
    as before and the table of the other entity untouched, and a second
    delete of the same key aborts with 404 and changes nothing. *)
Theorem delete_removes_one_row_only
    (read_key : string -> KeyReading) (ident : string) (w : World) (i : nat) :
  read_key ident = Key i ->
  (forall v,
     find_row i (venues (working w)) = Some v ->
     let db' := stored (snd (delete_venue read_key ident false w)) in
     (forall j, j <> i ->
        find_row j (venues db') = find_row j (venues (working w)))
     /\ artists db' = artists (working w)
     /\ (forall b,
           fst (delete_venue read_key ident b (fresh_world db')) = Abort 404
           /\ stored (snd (delete_venue read_key ident b (fresh_world db'))) = db'))
  /\ (forall a,
        find_row i (artists (working w)) = Some a ->
        let db' := stored (snd (delete_artist read_key ident false w)) in
        (forall j, j <> i ->
           find_row j (artists db') = find_row j (artists (working w)))
        /\ venues db' = venues (working w)
        /\ (forall b,
              fst (delete_artist read_key ident b (fresh_world db')) = Abort 404
              /\ stored (snd (delete_artist read_key ident b (fresh_world db'))) = db')).
Proof.
  intros Hread. split.
  - intros v Hf db'.
    assert (Edb : db' = mkDatabase (delete_row i (venues (working w)))
                          (artists (working w)) (shows (working w)))
      by (destruct (delete_venue_committed w i read_key ident Hread v Hf)
            as (_ & E & _); exact E).
    assert (Hgone : find_row i (venues db') = None)
      by (rewrite Edb; apply (@find_row_deleted Venue.t VenueModel)).
    split; [|split].
    + intros j Hj. rewrite Edb. cbn [venues].
      now apply (@find_row_delete_other Venue.t VenueModel).
    + now rewrite Edb.
    + intros b.
      destruct (delete_venue_missing (fresh_world db') i read_key ident
                  Hread b Hgone)
        as (Hr & Hs & _).
      split; [exact Hr | exact Hs].
  - intros a Hf db'.
    assert (Edb : db' = mkDatabase (venues (working w))
                          (delete_row i (artists (working w)))
                          (shows (working w)))
      by (destruct (delete_artist_committed w i read_key ident Hread a Hf)
            as (_ & E & _); exact E).
    assert (Hgone : find_row i (artists db') = None)
      by (rewrite Edb; apply (@find_row_deleted Artist.t ArtistModel)).
    split; [|split].
    + intros j Hj. rewrite Edb. cbn [artists].
      now apply (@find_row_delete_other Artist.t ArtistModel).
    + now rewrite Edb.
    + intros b.
      destruct (delete_artist_missing (fresh_world db') i read_key ident
                  Hread b Hgone)
        as (Hr & Hs & _).
      split; [exact Hr | exact Hs].
Qed.

Lemma delete_removes_one_row_only_witness :
  digits_key "1" = Key 1
  /\ find_row 1 (venues (working (fresh_world sample_db))) = Some fillmore
  /\ find_row 2
       (venues
          (stored (snd (delete_venue digits_key "1" false
                          (fresh_world sample_db)))))
     = Some jazz_club.
Proof.
  split; [reflexivity|]. split; [reflexivity|].
  destruct (delete_removes_one_row_only digits_key "1"
              (fresh_world sample_db) 1 eq_refl) as (H & _).
  destruct (H fillmore eq_refl) as (Hother & _).
  rewrite (Hother 2) by discriminate. reflexivity.
Defined.

(* ------------------------------------------------------------------------- *)
(** ** Key uniqueness and the datetime filter *)
(* ------------------------------------------------------------------------- *)

Section KeysKept.
Variable db : Database.
Hypothesis Hk : keys_unique db.

Lemma keys_after_insert :
  (forall x : Venue.t,
     Venue.id x = fresh_id (map Venue.id (venues db)) ->
     keys_unique (mkDatabase (venues db ++ [x]) (artists db) (shows db)))
  /\ (forall x : Artist.t,
        Artist.id x = fresh_id (map Artist.id (artists db)) ->
        keys_unique (mkDatabase (venues db) (artists db ++ [x]) (shows db)))
  /\ (forall x : Show.t,
        Show.id x = fresh_id (map Show.id (shows db)) ->
        keys_unique (mkDatabase (venues db) (artists db) (shows db ++ [x]))).
Proof.
  destruct Hk as (Hv & Ha & Hs).
  split; [|split]; intros x Ex; repeat split; try assumption.
  - apply (@insert_keeps_keys Venue.t VenueModel x); [|assumption].
    cbn [pk VenueModel]. rewrite Ex. apply fresh_id_new.
  - apply (@insert_keeps_keys Artist.t ArtistModel x); [|assumption].
    cbn [pk ArtistModel]. rewrite Ex. apply fresh_id_new.
  - apply (@insert_keeps_keys Show.t ShowModel x); [|assumption].
    cbn [pk ShowModel]. rewrite Ex. apply fresh_id_new.
Qed.

Lemma keys_after_update :
  (forall x : Venue.t,
     keys_unique
       (mkDatabase (update_row x (venues db)) (artists db) (shows db)))
  /\ (forall x : Artist.t,
        keys_unique
          (mkDatabase (venues db) (update_row x (artists db)) (shows db))).
Proof.
  destruct Hk as (Hv & Ha & Hs).
  split; intros x; repeat split; try assumption; cbn [venues artists].
  - now rewrite (@update_keeps_keys Venue.t VenueModel).
  - now rewrite (@update_keeps_keys Artist.t ArtistModel).
Qed.

Lemma keys_after_delete (i : nat) :
  keys_unique
    (mkDatabase (delete_row i (venues db)) (artists db) (shows db))
  /\ keys_unique
       (mkDatabase (venues db) (delete_row i (artists db)) (shows db)).
Proof.
  destruct Hk as (Hv & Ha & Hs).
  split; repeat split; try assumption; cbn [venues artists];
    now apply filter_keeps_keys.
Qed.
End KeysKept.

(** X19: if primary keys are unique in the committed rows and in the session's
    view, they are unique in the committed rows after any create, edit or
    delete request, whatever the form, the key, the engine's reading of a
    delete route's path segment and the commit outcome. *)
Theorem writes_keep_keys_unique (forms : Validators) (w : World) :
  keys_unique (stored w) ->
  keys_unique (working w) ->
  (forall req b, keys_unique (stored (snd (create_venue forms req b w))))
  /\ (forall req b, keys_unique (stored (snd (create_artist forms req b w))))
  /\ (forall req b, keys_unique (stored (snd (create_show forms req b w))))
  /\ (forall i req b, keys_unique (stored (snd (edit_venue forms i req b w))))
  /\ (forall i req b,
        keys_unique (stored (snd (edit_artist forms i req b w))))
  /\ (forall read_key ident b,
        keys_unique (stored (snd (delete_venue read_key ident b w))))
  /\ (forall read_key ident b,
        keys_unique (stored (snd (delete_artist read_key ident b w)))).
Proof.
  intros Hs Hw.
  destruct (keys_after_insert _ Hw) as (Hiv & Hia & His).
  destruct (keys_after_update _ Hw) as (Huv & Hua).
  split; [|split; [|split; [|split; [|split; [|split]]]]].
  - intros req b.
    destruct (validate_on_submit (validate_venue forms) req) eqn:Hv.
    + destruct b.
      * destruct (create_venue_commit_fails forms w req Hv) as (_ & -> & _).
        exact Hs.
      * rewrite (create_venue_stored forms w req Hv). now apply Hiv.
    + unfold create_venue. rewrite Hv. exact Hs.
  - intros req b.
    destruct (validate_on_submit (validate_artist forms) req) eqn:Hv.
    + destruct b.
      * destruct (create_artist_commit_fails forms w req Hv) as (_ & -> & _).
        exact Hs.
      * rewrite (create_artist_stored forms w req Hv). now apply Hia.
    + unfold create_artist. rewrite Hv. exact Hs.
  - intros req b.
    destruct (validate_on_submit (validate_show forms) req) eqn:Hv.
    + destruct b.
      * destruct (create_show_commit_fails forms w req Hv) as (_ & -> & _).
        exact Hs.
      * rewrite (create_show_stored forms w req Hv). now apply His.
    + unfold create_show. rewrite Hv. exact Hs.
  - intros i req b.
    destruct (find_row i (venues (working w))) as [venue|] eqn:Hf.
    + destruct (validate_on_submit (validate_venue forms) req) eqn:Hv.
      * destruct b.
        -- destruct (edit_venue_commit_fails forms w i req venue Hf Hv)
             as (_ & -> & _).
           exact Hs.
        -- rewrite (edit_venue_stored forms w i req venue Hf Hv). apply Huv.
      * run. rewrite Hf, Hv. exact Hs.
    + destruct (proj1 (edit_missing_row forms w i b) req Hf) as (_ & -> & _).
      exact Hs.
  - intros i req b.
    destruct (find_row i (artists (working w))) as [artist|] eqn:Hf.
    + destruct (validate_on_submit (validate_artist forms) req) eqn:Hv.
      * destruct b.
        -- destruct (edit_artist_commit_fails forms w i req artist Hf Hv)
             as (_ & -> & _).
           exact Hs.
        -- rewrite (edit_artist_stored forms w i req artist Hf Hv). apply Hua.
      * run. rewrite Hf, Hv. exact Hs.
    + destruct (proj2 (edit_missing_row forms w i b) req Hf) as (_ & -> & _).
      exact Hs.
  - intros read_key ident b.
    destruct (read_key ident) as [i| |] eqn:Hread.
    + destruct (find_row i (venues (working w))) as [v|] eqn:Hf.
      * destruct b.
        -- destruct (delete_venue_commit_fails w i read_key ident Hread v Hf)
             as (_ & -> & _).
           exact Hs.
        -- destruct (delete_venue_committed w i read_key ident Hread v Hf)
             as (_ & -> & _).
           apply (keys_after_delete _ Hw).
      * destruct (delete_venue_missing w i read_key ident Hread b Hf)
          as (_ & -> & _).
        exact Hs.
    + run. rewrite Hread. exact Hs.
    + run. rewrite Hread. exact Hs.
  - intros read_key ident b.
    destruct (read_key ident) as [i| |] eqn:Hread.
    + destruct (find_row i (artists (working w))) as [a|] eqn:Hf.
      * destruct b.
        -- destruct (delete_artist_commit_fails w i read_key ident Hread a Hf)
             as (_ & -> & _).
           exact Hs.
        -- destruct (delete_artist_committed w i read_key ident Hread a Hf)
             as (_ & -> & _).
           apply (keys_after_delete _ Hw).
      * destruct (delete_artist_missing w i read_key ident Hread b Hf)
          as (_ & -> & _).
        exact Hs.
    + run. rewrite Hread. exact Hs.
    + run. rewrite Hread. exact Hs.
Qed.

Lemma writes_keep_keys_unique_witness :
  keys_unique (stored (fresh_world sample_db))
  /\ keys_unique (working (fresh_world sample_db))
  /\ keys_unique
       (stored (snd (create_show sample_forms
                       (mkRequest POST sample_show_form) false
                       (fresh_world sample_db)))).
Proof.
  split; [exact sample_keys_unique|]. split; [exact sample_keys_unique|].
  destruct (writes_keep_keys_unique sample_forms (fresh_world sample_db)
              sample_keys_unique sample_keys_unique) as (_ & _ & H & _).
  exact (H (mkRequest POST sample_show_form) false).
Defined.

Section DatetimeFilter.
Variable parse : string -> option Z.
Variable babel_format : Z -> string -> string.

(** X20: the filter yields nothing when a string value does not parse, and
    otherwise formats the datetime (given or parsed) with the full pattern
    for the format name [full] and with the medium pattern for every other
    name, known or not. *)
Theorem format_datetime_patterns (value : DateValue) (format_name : string) :
  let date :=
    match value with
    | a_datetime date => Some date
    | a_string text => parse text
    end in
  (date = None ->
   format_datetime parse babel_format value format_name = None)
  /\ (forall moment,
        date = Some moment ->
        format_datetime parse babel_format value format_name
        = Some (babel_format moment
                  (if String.eqb format_name "full"
                   then "EEEE MMMM, d, y 'at' h:mma"
                   else "EE MM, dd, y h:mma")))
  /\ (format_name <> "full" ->
      format_datetime parse babel_format value format_name
      = format_datetime parse babel_format value "medium").
Proof.
  intros date. unfold format_datetime. fold date.
  destruct (String.eqb_spec format_name "full") as [-> | Hne].
  - split; [now intros -> |]. split; [now intros m -> | congruence].
  - split; [now intros -> |]. split.
    + intros m ->. now destruct (String.eqb format_name "medium").
    + intros _. cbn. now destruct (String.eqb format_name "medium").
Qed.
End DatetimeFilter.

Lemma format_datetime_patterns_witness :
  "short" <> "full"
  /\ format_datetime sample_parse sample_babel_format (a_string "") "short"
     = None
  /\ format_datetime sample_parse sample_babel_format (a_datetime 0) "short"
     = format_datetime sample_parse sample_babel_format (a_datetime 0)
         "medium".
Proof.
  destruct (format_datetime_patterns sample_parse sample_babel_format
              (a_string "") "short") as (Hnone & _).
  destruct (format_datetime_patterns sample_parse sample_babel_format
              (a_datetime 0) "short") as (_ & _ & Hmedium).
  split; [discriminate|]. split; [exact (Hnone eq_refl)|].
  apply Hmedium. discriminate.
Defined.

(* ------------------------------------------------------------------------- *)
(** ** Cards of the detail pages *)
(* ------------------------------------------------------------------------- *)

(** X21: every card on a venue page is built from a stored show at that venue
    and the stored artist the show's artist key selects, and the show starts
    before the first clock value (past list) or at or after the second
    (upcoming list). *)
Theorem venue_cards_are_sound
    (db : Database) (i : nat) (t1 t2 : Z) (card : Card.t) :
  (In card (past_shows (venue_listing i t1 t2 db)) ->
   exists a s,
     card = Card.mk (Artist.id a) (Artist.name a) (Artist.image_link a)
              (Show.start_time s)
     /\ In a (artists db) /\ In s (shows db)
     /\ Show.artist_id s = Artist.id a /\ Show.venue_id s = i
     /\ (Show.start_time s < t1)%Z)
  /\ (In card (upcoming_shows (venue_listing i t1 t2 db)) ->
      exists a s,
        card = Card.mk (Artist.id a) (Artist.name a) (Artist.image_link a)
                 (Show.start_time s)
        /\ In a (artists db) /\ In s (shows db)
        /\ Show.artist_id s = Artist.id a /\ Show.venue_id s = i
        /\ (t2 <= Show.start_time s)%Z).
Proof.
  unfold venue_listing. cbn [past_shows upcoming_shows].
  split; intros Hin; apply in_map_iff in Hin as ([a s] & <- & Hin);
    apply in_all in Hin; apply in_map_iff in Hin as ([[a' s'] v] & E & Hin);
    cbn in E; inversion E; subst a' s'; clear E;
    apply filter_In in Hin as (Hrow & Hp); cbn [fst snd] in Hp;
    apply andb_prop in Hp as (Hp & Ht); apply andb_prop in Hp as (Hv & Ha);
    apply Nat.eqb_eq in Hv, Ha;
    apply in_artist_show_rows in Hrow as (Hina & Hins & _);
    exists a, s; repeat split; auto.
  - now apply Z.ltb_lt.
  - now apply Z.geb_le.
Qed.

Lemma in_artist_rows (db : Database) (p : Show.t -> bool) (i : nat)
    (s : Show.t) :
  keys_unique db ->
  In s (map snd
          (all pair_identity
             (map fst
                (filter (fun r : Venue.t * Show.t * Artist.t =>
                           (Show.venue_id (snd (fst r)) =? i)
                           && (Show.artist_id (snd (fst r))
                               =? Artist.id (snd r))
                           && p (snd (fst r)))
                   (venue_show_artist db)))))
  <-> In s (shows db) /\ Show.venue_id s = i /\ p s = true
      /\ (exists a, In a (artists db) /\ Artist.id a = Show.artist_id s)
      /\ (exists v, In v (venues db) /\ Venue.id v = Show.venue_id s).
Proof.
  intros Hk. rewrite (artist_rows_all db _ Hk), map_map, in_map_iff.
  unfold venue_show_artist. split.
  - intros ([[v s'] a] & E & Hin). cbn in E. subst s'.
    apply filter_In in Hin as (Hin & Hp). cbn [fst snd] in Hp.
    apply andb_prop in Hp as (Hp & Hps). apply andb_prop in Hp as (Hv & Ha).
    apply Nat.eqb_eq in Hv, Ha.
    apply in_join in Hin as (Hin & Hina & Eja). cbn [fst snd] in Eja.
    apply in_join in Hin as (Hinv & Hins & Ejv).
    apply Nat.eqb_eq in Eja, Ejv.
    repeat split; try assumption; [exists a | exists v]; auto.
  - intros (Hs & Hv & Hp & (a & Ha & Ea) & (v & Hinv & Ev)).
    exists (v, s, a). split; [reflexivity|]. apply filter_In. split.
    + apply in_join. cbn [fst snd]. split; [|split; [assumption|]].
      * apply in_join. split; [assumption|]. split; [assumption|].
        now apply Nat.eqb_eq.
      * now apply Nat.eqb_eq.
    + cbn [fst snd]. rewrite Hp, Hv, Ea, !Nat.eqb_refl. reflexivity.
Qed.

(** X22: under unique primary keys the two lists of the artist page of key [i]
    hold exactly the shows that the two lists of the venue page of key [i]
    hold, so every show on it has venue key [i]. *)
Theorem artist_page_lists_by_venue_key
    (db : Database) (i : nat) (t : Z) (s : Show.t) :
  keys_unique db ->
  (In s (map snd (all pair_identity (artist_past_shows i t db)))
   <-> In s (map snd (all pair_identity (venue_past_shows i t db))))
  /\ (In s (map snd (all pair_identity (artist_upcoming_shows i t db)))
      <-> In s (map snd (all pair_identity (venue_upcoming_shows i t db))))
  /\ (In s (map snd (all pair_identity (artist_past_shows i t db))) ->
      Show.venue_id s = i).
Proof.
  intros Hk.
  unfold artist_past_shows, artist_upcoming_shows, venue_past_shows,
    venue_upcoming_shows.
  rewrite (in_artist_rows db (fun s => (Show.start_time s <? t)%Z) i s Hk).
  rewrite (in_artist_rows db (fun s => (Show.start_time s >=? t)%Z) i s Hk).
  rewrite (in_venue_rows db (fun s => (Show.start_time s <? t)%Z) i s Hk).
  rewrite (in_venue_rows db (fun s => (Show.start_time s >=? t)%Z) i s Hk).
  tauto.
Qed.

Lemma artist_page_lists_by_venue_key_witness :
  keys_unique sample_db
  /\ In quevedo_at_fillmore
       (map snd (all pair_identity (artist_upcoming_shows 1 200 sample_db))).
Proof.
  split; [exact sample_keys_unique|].
  apply (proj1 (proj2 (artist_page_lists_by_venue_key sample_db 1 200
                         quevedo_at_fillmore sample_keys_unique))).
  vm_compute. auto.
Defined.
